(** * The ADM datamart construction pipeline (pdstools, [adm/new_ADMDatamart.py])

    A shallow embedding of [ADMDatamart.__init__], [from_ds_export],
    [_validate_model_data], [_validate_predictor_data],
    [apply_predictor_categorization] and [save_data], over a small model of
    the polars lazy frames they build, with binary64 arithmetic taken from
    the bit-level IEEE 754 specification of the standard library; with it
    [polars_subset_to_existing_cols] of [utils/report_utils.py] and
    [handle_pega_exception] of [infinity/internal/_exceptions.py]. *)

From Stdlib Require Import ZArith List String Ascii Bool Lia SpecFloat.
Import ListNotations.
Local Open Scope string_scope.
Local Open Scope Z_scope.

Set Implicit Arguments.

(** ** Python results: a value or a raised exception *)

Inductive exn :=
| ColumnNotFoundError (name : string)
| InvalidOperationError
| ComputeError
| KeyError (key : string).

Inductive result (A : Type) :=
| Ok (a : A)
| Raise (e : exn).
Arguments Ok {A} a.
Arguments Raise {A} e.

Definition bind {A B} (r : result A) (k : A -> result B) : result B :=
  match r with
  | Ok a => k a
  | Raise e => Raise e
  end.

Notation "x <- c ;; k" := (bind c (fun x => k))
  (at level 61, c at next level, right associativity).

Definition fmap_result {A B} (f : A -> B) (r : result A) : result B :=
  match r with
  | Ok a => Ok (f a)
  | Raise e => Raise e
  end.

Notation "f <$> r" := (fmap_result f r) (at level 62, left associativity).

Fixpoint map_result {A B} (f : A -> result B) (l : list A) : result (list B) :=
  match l with
  | [] => Ok []
  | a :: l' => b <- f a ;; bs <- map_result f l' ;; Ok (b :: bs)
  end.

(** ** Binary64 *)

Module F64.

Definition prec := 53.
Definition emax := 1024.

Definition t := spec_float.

Definition of_int (z : Z) : t := binary_normalize prec emax z 0 false.
Definition add : t -> t -> t := SFadd prec emax.
Definition div : t -> t -> t := SFdiv prec emax.
Definition ltb : t -> t -> bool := SFltb.
Definition leb : t -> t -> bool := SFleb.

Definition is_nan (x : t) : bool :=
  match x with
  | S754_nan => true
  | _ => false
  end.

Definition zero : t := S754_zero false.
Definition one : t := S754_finite false 4503599627370496 (-52).
Definition half : t := S754_finite false 4503599627370496 (-53).
Definition quarter : t := S754_finite false 4503599627370496 (-54).
Definition inf : t := S754_infinity false.

End F64.

(** ** Association lists keyed by column name, in column order *)

Section Alist.
Variable V : Type.

Fixpoint lookup (k : string) (l : list (string * V)) : option V :=
  match l with
  | [] => None
  | (k', v) :: l' => if String.eqb k k' then Some v else lookup k l'
  end.

(** [with_columns] semantics for one column: an existing column is replaced
    in place, a new one is appended at the end. *)
Fixpoint upsert (k : string) (v : V) (l : list (string * V)) : list (string * V) :=
  match l with
  | [] => [(k, v)]
  | (k', v') :: l' =>
      if String.eqb k k' then (k, v) :: l' else (k', v') :: upsert k v l'
  end.

Definition upserts (kvs : list (string * V)) (l : list (string * V)) :=
  fold_left (fun acc kv => upsert (fst kv) (snd kv) acc) kvs l.

Definition names (l : list (string * V)) : list string := map fst l.

End Alist.

(** Python's [x in names] on a list of strings. *)
Definition contains (k : string) (l : list string) : bool :=
  existsb (String.eqb k) l.

(** ** The polars fragment the datamart uses *)

Module pl.

Inductive DataType := Int64 | Float64 | String_ | Boolean | Datetime.

Definition DataType_eqb (a b : DataType) : bool :=
  match a, b with
  | Int64, Int64 | Float64, Float64 | String_, String_
  | Boolean, Boolean | Datetime, Datetime => true
  | _, _ => false
  end.

(** A cell.  [VInt] holds a signed 64-bit integer, [VFloat] a binary64,
    [VDatetime] microseconds since the epoch. *)
Inductive Value :=
| VNull
| VInt (z : Z)
| VFloat (f : F64.t)
| VStr (s : string)
| VBool (b : bool)
| VDatetime (us : Z).

Definition Schema := list (string * DataType).
Definition Row := list (string * Value).

Record DataFrame := { schema : Schema; rows : list Row }.

(** Expressions.  [external] stands for an expression built by a helper
    outside this file (date parsing, predictor categorisation): it reads
    the listed columns and maps their cells to a cell of type [out]. *)
Inductive Expr :=
| col (name : string)
| lit_int (z : Z)
| lit_float (f : F64.t)
| lit_str (s : string)
| truediv (a b : Expr)
| add (a b : Expr)
| gt (a b : Expr)
| fill_nan (a v : Expr)
| external (deps : list string) (out : DataType)
           (f : list Value -> result Value).

(** Lazy frames: a plan over in-memory data; nothing is evaluated until
    [collect]. *)
Inductive LazyFrame :=
| lazy (df : DataFrame)
| with_columns (lf : LazyFrame) (named : list (string * Expr))
| filter (lf : LazyFrame) (predicate : Expr).

(** *** Arithmetic on cells *)

(** Signed 64-bit wrap-around of integer arithmetic. *)
Definition wrap64 (z : Z) : Z :=
  (z + 9223372036854775808) mod 18446744073709551616 - 9223372036854775808.

Definition to_float (v : Value) : option F64.t :=
  match v with
  | VInt z => Some (F64.of_int z)
  | VFloat f => Some f
  | _ => None
  end.

(** [a / b]: true division, always binary64; null if an operand is null. *)
Definition truediv_value (a b : Value) : result Value :=
  match a, b with
  | VNull, (VNull | VInt _ | VFloat _) => Ok VNull
  | (VInt _ | VFloat _), VNull => Ok VNull
  | _, _ =>
      match to_float a, to_float b with
      | Some x, Some y => Ok (VFloat (F64.div x y))
      | _, _ => Raise InvalidOperationError
      end
  end.

(** [a + b]: 64-bit integers wrap, a float operand makes the sum binary64,
    strings concatenate; null if an operand is null. *)
Definition add_value (a b : Value) : result Value :=
  match a, b with
  | VNull, (VNull | VInt _ | VFloat _ | VStr _) => Ok VNull
  | (VInt _ | VFloat _ | VStr _), VNull => Ok VNull
  | VInt x, VInt y => Ok (VInt (wrap64 (x + y)))
  | VStr x, VStr y => Ok (VStr (x ++ y))
  | _, _ =>
      match to_float a, to_float b with
      | Some x, Some y => Ok (VFloat (F64.add x y))
      | _, _ => Raise InvalidOperationError
      end
  end.

Definition gt_value (a b : Value) : result Value :=
  match a, b with
  | VNull, (VNull | VInt _ | VFloat _) => Ok VNull
  | (VInt _ | VFloat _), VNull => Ok VNull
  | VInt x, VInt y => Ok (VBool (y <? x))
  | _, _ =>
      match to_float a, to_float b with
      | Some x, Some y => Ok (VBool (F64.ltb y x))
      | _, _ => Raise InvalidOperationError
      end
  end.

(** [a.fill_nan(v)]: a NaN float cell is replaced by [v] cast to binary64;
    every other cell, null included, is left as it is. *)
Definition fill_nan_value (a v : Value) : result Value :=
  match a with
  | VFloat f =>
      if F64.is_nan f then
        match v with
        | VNull => Ok VNull
        | _ => match to_float v with
               | Some x => Ok (VFloat x)
               | None => Raise InvalidOperationError
               end
        end
      else Ok a
  | _ => Ok a
  end.

Definition get_column {V} (l : list (string * V)) (n : string) : result V :=
  match lookup n l with
  | Some v => Ok v
  | None => Raise (ColumnNotFoundError n)
  end.

Fixpoint eval (r : Row) (e : Expr) : result Value :=
  match e with
  | col n => get_column r n
  | lit_int z => Ok (VInt z)
  | lit_float f => Ok (VFloat f)
  | lit_str s => Ok (VStr s)
  | truediv a b => x <- eval r a ;; y <- eval r b ;; truediv_value x y
  | add a b => x <- eval r a ;; y <- eval r b ;; add_value x y
  | gt a b => x <- eval r a ;; y <- eval r b ;; gt_value x y
  | fill_nan a v => x <- eval r a ;; y <- eval r v ;; fill_nan_value x y
  | external deps _ f => vs <- map_result (get_column r) deps ;; f vs
  end.

(** *** Schema resolution *)

Definition is_numeric (t : DataType) : bool :=
  match t with
  | Int64 | Float64 => true
  | _ => false
  end.

Fixpoint dtype (s : Schema) (e : Expr) : result DataType :=
  match e with
  | col n => get_column s n
  | lit_int _ => Ok Int64
  | lit_float _ => Ok Float64
  | lit_str _ => Ok String_
  | truediv a b =>
      ta <- dtype s a ;; tb <- dtype s b ;;
      if is_numeric ta && is_numeric tb then Ok Float64
      else Raise InvalidOperationError
  | add a b =>
      ta <- dtype s a ;; tb <- dtype s b ;;
      match ta, tb with
      | Int64, Int64 => Ok Int64
      | String_, String_ => Ok String_
      | _, _ => if is_numeric ta && is_numeric tb then Ok Float64
                else Raise InvalidOperationError
      end
  | gt a b =>
      ta <- dtype s a ;; tb <- dtype s b ;;
      if is_numeric ta && is_numeric tb then Ok Boolean
      else Raise InvalidOperationError
  | fill_nan a v => ta <- dtype s a ;; _ <- dtype s v ;; Ok ta
  | external deps out _ =>
      _ <- map_result (get_column s) deps ;; Ok out
  end.

Definition named_dtypes (s : Schema) (named : list (string * Expr))
  : result (list (string * DataType)) :=
  map_result (fun ne => t <- dtype s (snd ne) ;; Ok (fst ne, t)) named.

Definition named_values (r : Row) (named : list (string * Expr))
  : result (list (string * Value)) :=
  map_result (fun ne => v <- eval r (snd ne) ;; Ok (fst ne, v)) named.

Definition with_columns_schema (s : Schema) (named : list (string * Expr))
  : result Schema :=
  ts <- named_dtypes s named ;; Ok (upserts ts s).

(** Every expression of one [with_columns] call reads the incoming row. *)
Definition with_columns_row (named : list (string * Expr)) (r : Row)
  : result Row :=
  vs <- named_values r named ;; Ok (upserts vs r).

Definition filter_schema (s : Schema) (p : Expr) : result Schema :=
  t <- dtype s p ;;
  if DataType_eqb t Boolean then Ok s else Raise InvalidOperationError.

Definition keeps (p : Expr) (r : Row) : result bool :=
  v <- eval r p ;;
  match v with
  | VBool b => Ok b
  | VNull => Ok false
  | _ => Raise InvalidOperationError
  end.

Fixpoint filter_rows (p : Expr) (rs : list Row) : result (list Row) :=
  match rs with
  | [] => Ok []
  | r :: rs' =>
      b <- keeps p r ;; rest <- filter_rows p rs' ;;
      Ok (if b then r :: rest else rest)
  end.

(** [lf.collect_schema()] *)
Fixpoint collect_schema (lf : LazyFrame) : result Schema :=
  match lf with
  | lazy df => Ok (schema df)
  | with_columns lf' named =>
      s <- collect_schema lf' ;; with_columns_schema s named
  | filter lf' p => s <- collect_schema lf' ;; filter_schema s p
  end.

(** [lf.collect()]: the schema is resolved first, then the rows are
    computed. *)
Fixpoint collect (lf : LazyFrame) : result DataFrame :=
  match lf with
  | lazy df => Ok df
  | with_columns lf' named =>
      df <- collect lf' ;;
      s <- with_columns_schema (schema df) named ;;
      rs <- map_result (with_columns_row named) (rows df) ;;
      Ok {| schema := s; rows := rs |}
  | filter lf' p =>
      df <- collect lf' ;;
      s <- filter_schema (schema df) p ;;
      rs <- filter_rows p (rows df) ;;
      Ok {| schema := s; rows := rs |}
  end.

End pl.

Import pl.

(** ** Wall-clock time and [strftime] *)

Module datetime.

Record t := {
  year : N; month : N; day : N;
  hour : N; minute : N; second : N;
  microsecond : N
}.

(** The ranges a [datetime.datetime] object guarantees. *)
Definition valid (d : t) : Prop :=
  (1 <= year d <= 9999 /\ 1 <= month d <= 12 /\ 1 <= day d <= 31 /\
   hour d < 24 /\ minute d < 60 /\ second d < 60 /\
   microsecond d < 1000000)%N.

Definition digit (n : N) : ascii :=
  match (n mod 10)%N with
  | 0%N => "0" | 1%N => "1" | 2%N => "2" | 3%N => "3"
  | 4%N => "4" | 5%N => "5" | 6%N => "6" | 7%N => "7"
  | 8%N => "8" | _ => "9"
  end%char.

(** A zero-padded decimal field of width [w] (for a value below [10^w]). *)
Fixpoint field (w : nat) (n : N) : string :=
  match w with
  | O => ""
  | S w' => field w' (n / 10)%N ++ String (digit n) ""
  end.

(** [d.strftime("%Y%m%dT%H%M%S.%f")] *)
Definition strftime (d : t) : string :=
  field 4 (year d) ++ field 2 (month d) ++ field 2 (day d) ++ "T" ++
  field 2 (hour d) ++ field 2 (minute d) ++ field 2 (second d) ++ "." ++
  field 6 (microsecond d).

End datetime.

(** Python's [s[:-3]]. *)
Definition drop_last3 (s : string) : string :=
  substring 0 (String.length s - 3) s.

(** ** The datamart *)

Module ADMDatamart.

(** The categorisation argument of [apply_predictor_categorization]: an
    expression, or a callable producing one.  A callable is given by the
    expression its n-th invocation returns. *)
Inductive Categorization :=
| CatExpr (e : Expr)
| CatCallable (f : nat -> Expr).

(** The query argument: absent, or a collection of predicates. *)
Definition QUERY := list Expr.

Definition Path := string.

Record t := {
  context_keys : list string;
  model_data : option LazyFrame;
  predictor_data : option LazyFrame;
  combined_data : option LazyFrame
}.

(** What [save_data] does to the outside world: clock reads and
    [cache_to_file] calls, the latest call first. *)
Record World := {
  clock_reads : nat;
  cache_calls : list (LazyFrame * string * string)
}.

Definition candidate_keys : list string :=
  ["Channel"; "Direction"; "Issue"; "Group"; "Name"].

Section Collaborators.

(** Helpers of [cdh_utils], [Aggregates] and [pega_io] that the datamart
    calls and that live outside the files embedded here. *)
Variable _polars_capitalize : LazyFrame -> LazyFrame.
Variable _extract_keys : LazyFrame -> LazyFrame.
Variable parse_pega_date_time_formats : Expr.
Variable default_predictor_categorization : Categorization.
Variable join_model_predictor : LazyFrame -> LazyFrame -> LazyFrame.
Variable cache_to_file : LazyFrame -> string -> string -> result Path.
Variable now : nat -> datetime.t.
Variable read_ds_export : string -> string -> option LazyFrame.

(** Modelled from the spec: [cdh_utils._apply_query] is not among the
    embedded files.  Zero or more filter predicates restrict the frame to
    the matching rows, lazily; no predicates leave the frame as it is. *)
Definition _apply_query (df : LazyFrame) (query : option QUERY) : LazyFrame :=
  match query with
  | None => df
  | Some predicates => fold_left filter predicates df
  end.

(** Modelled from the spec: [Aggregates._combine_data] is not among the
    embedded files.  The combined view is absent when either source is
    absent, and otherwise a join of the two that is built lazily. *)
Definition _combine_data (model_df predictor_df : option LazyFrame)
  : option LazyFrame :=
  match model_df, predictor_df with
  | Some m, Some p => Some (join_model_predictor m p)
  | _, _ => None
  end.

Definition SuccessRate_expr : Expr :=
  fill_nan (truediv (col "Positives") (col "ResponseCount")) (lit_int 0).

(** [schema["SnapshotTime"]] *)
Definition schema_getitem (s : Schema) (k : string) : result DataType :=
  match lookup k s with
  | Some t => Ok t
  | None => Raise (KeyError k)
  end.

(** [_validate_model_data]; [self_context_keys] is [self.context_keys] on
    entry, and its value on exit is returned with the frame. *)
Definition _validate_model_data (self_context_keys : list string)
    (df : option LazyFrame) (query : option QUERY)
    (extract_pyname_keys : bool)
  : result (option LazyFrame * list string) :=
  match df with
  | None => Ok (None, self_context_keys)
  | Some df =>
      let df := _polars_capitalize df in
      schema <- collect_schema df ;;
      let df :=
        if extract_pyname_keys && contains "Name" (names schema)
        then _extract_keys df else df in
      let self_context_keys :=
        if contains "Treatment" (names schema)
        then (self_context_keys ++ ["Treatment"])%list else self_context_keys in
      let self_context_keys :=
        List.filter (fun k => contains k (names schema)) self_context_keys in
      let df := with_columns df [("SuccessRate", SuccessRate_expr)] in
      snapshot_time <- schema_getitem schema "SnapshotTime" ;;
      let df :=
        if negb (DataType_eqb snapshot_time Datetime)
        then with_columns df [("SnapshotTime", parse_pega_date_time_formats)]
        else df in
      Ok (Some (_apply_query df query), self_context_keys)
  end.

(** [apply_predictor_categorization]; [calls] counts the invocations of
    categorisation callables so far. *)
Definition apply_predictor_categorization (df : LazyFrame)
    (categorization : Categorization) (calls : nat) : LazyFrame * nat :=
  let '(categorization, calls) :=
    match categorization with
    | CatCallable f => (f calls, S calls)
    | CatExpr e => (e, calls)
    end in
  (with_columns df [("PredictorCategory", categorization)], calls).

Definition BinResponseCount_expr : Expr :=
  add (col "BinPositives") (col "BinNegatives").

Definition BinPropensity_expr : Expr :=
  truediv (col "BinPositives") (col "BinResponseCount").

Definition BinAdjustedPropensity_expr : Expr :=
  truediv (add (col "BinPositives") (lit_float F64.half))
          (add (col "BinResponseCount") (lit_int 1)).

Definition _validate_predictor_data (df : option LazyFrame) (calls : nat)
  : result (option LazyFrame * nat) :=
  match df with
  | None => Ok (None, calls)
  | Some df =>
      let df := _polars_capitalize df in
      schema <- collect_schema df ;;
      let df :=
        if negb (contains "BinResponseCount" (names schema))
        then with_columns df [("BinResponseCount", BinResponseCount_expr)]
        else df in
      let df :=
        with_columns df
          [("BinPropensity", BinPropensity_expr);
           ("BinAdjustedPropensity", BinAdjustedPropensity_expr)] in
      let '(df, calls) :=
        if negb (contains "PredictorCategory" (names schema))
        then apply_predictor_categorization df
               default_predictor_categorization calls
        else (df, calls) in
      Ok (Some df, calls)
  end.

(** [ADMDatamart.__init__] *)
Definition __init__ (model_df predictor_df : option LazyFrame)
    (query : option QUERY) (extract_pyname_keys : bool) (calls : nat)
  : result (t * nat) :=
  let self_context_keys := candidate_keys in
  mk <- _validate_model_data self_context_keys model_df query
          extract_pyname_keys ;;
  pc <- _validate_predictor_data predictor_df calls ;;
  Ok ({| context_keys := snd mk;
         model_data := fst mk;
         predictor_data := fst pc;
         combined_data := _combine_data (fst mk) (fst pc) |}, snd pc).

(** Python's [filename or default] on an optional string: [None] and the
    empty string both give the default. *)
Definition or_default (filename : option string) (default : string) : string :=
  match filename with
  | None => default
  | Some EmptyString => default
  | Some s => s
  end.

(** [ADMDatamart.from_ds_export] *)
Definition from_ds_export (model_filename predictor_filename : option string)
    (base_path : string) (query : option QUERY) (extract_pyname_keys : bool)
    (calls : nat)
  : result (t * nat) :=
  let model_df :=
    read_ds_export (or_default model_filename "model_data") base_path in
  let predictor_df :=
    read_ds_export (or_default predictor_filename "predictor_data") base_path in
  __init__ model_df predictor_df query extract_pyname_keys calls.

(** [save_data].  A [cache_to_file] call that raises ends the save; the
    calls made before it stay in the world. *)
Definition save_data (self : t) (path : string) (w : World)
  : result (option Path * option Path) * World :=
  let time := drop_last3 (datetime.strftime (now (clock_reads w))) in
  let w := {| clock_reads := S (clock_reads w);
              cache_calls := cache_calls w |} in
  let '(modeldata_cache, w) :=
    match model_data self with
    | Some df =>
        let name := "cached_model_data_" ++ time in
        (match cache_to_file df path name with
         | Ok p => Ok (Some p)
         | Raise e => Raise e
         end,
         {| clock_reads := clock_reads w;
            cache_calls := (df, path, name) :: cache_calls w |})
    | None => (Ok None, w)
    end in
  match modeldata_cache with
  | Raise e => (Raise e, w)
  | Ok modeldata_cache =>
      let '(predictordata_cache, w) :=
        match predictor_data self with
        | Some df =>
            let name := "cached_predictor_data_" ++ time in
            (match cache_to_file df path name with
             | Ok p => Ok (Some p)
             | Raise e => Raise e
             end,
             {| clock_reads := clock_reads w;
                cache_calls := (df, path, name) :: cache_calls w |})
        | None => (Ok None, w)
        end in
      match predictordata_cache with
      | Raise e => (Raise e, w)
      | Ok predictordata_cache =>
          (Ok (modeldata_cache, predictordata_cache), w)
      end
  end.

End Collaborators.

End ADMDatamart.

Import ADMDatamart.

(** ** Report helpers ([utils/report_utils.py]) *)

Module report_utils.

(** [polars_subset_to_existing_cols]: the requested columns that exist, in
    the order they were requested. *)
Definition polars_subset_to_existing_cols (all_columns cols : list string)
  : list string :=
  List.filter (fun col => contains col all_columns) cols.

End report_utils.

(** ** Decoded JSON documents *)

Module Json.

(** The Python object [json.loads] builds: [None], a [bool], an [int], a
    [float], a [str], a [list] or a [dict].  A string is the sequence of its
    characters; a [dict] is given by its items, the first item of a key
    being the one the key maps to. *)
#[warnings="-register-all"]
Inductive t :=
| Null
| Bool (b : bool)
| Int (z : Z)
| Float (f : F64.t)
| Str (s : string)
| Array (l : list t)
| Object (d : list (string * t)).

(** The exceptions the operations below raise. *)
Inductive builtin_error :=
| AttributeError
| TypeError
| KeyError
| IndexError.

(** Python's truth value of an object. *)
Definition truthy (v : t) : bool :=
  match v with
  | Null => false
  | Bool b => b
  | Int z => negb (z =? 0)
  | Float (S754_zero _) => false
  | Float _ => true
  | Str EmptyString => false
  | Str _ => true
  | Array [] => false
  | Array _ => true
  | Object [] => false
  | Object _ => true
  end.

(** [len(v)]: the number of characters, elements or keys; the other objects
    have no length. *)
Definition len (v : t) : builtin_error + nat :=
  match v with
  | Str s => inr (String.length s)
  | Array l => inr (List.length l)
  | Object d => inr (List.length (nodup string_dec (names d)))
  | Null | Bool _ | Int _ | Float _ => inl TypeError
  end.

(** [v[0]].  The keys of a decoded object are strings, so [0] is never one
    of them. *)
Definition getitem_0 (v : t) : builtin_error + t :=
  match v with
  | Array (x :: _) => inr x
  | Array [] => inl IndexError
  | Str (String c _) => inr (Str (String c EmptyString))
  | Str EmptyString => inl IndexError
  | Object _ => inl KeyError
  | Null | Bool _ | Int _ | Float _ => inl TypeError
  end.

(** [v.get(key)], with the default [None]: only a [dict] has the method. *)
Definition get (v : t) (key : string) : builtin_error + t :=
  match v with
  | Object d =>
      inr (match lookup key d with
           | Some x => x
           | None => Null
           end)
  | _ => inl AttributeError
  end.

(** [table.get(key)] on a [dict] with string keys: a [list] or a [dict] is
    not hashable, every other object that is not one of the keys gives
    [None]. *)
Definition dict_get {A} (table : list (string * A)) (key : t)
  : builtin_error + option A :=
  match key with
  | Array _ | Object _ => inl TypeError
  | Str s => inr (lookup s table)
  | Null | Bool _ | Int _ | Float _ => inr None
  end.

End Json.

(** ** Errors of the Infinity client ([infinity/internal/_exceptions.py]) *)

Module _exceptions.

(** What the code reads of an [httpx.Response]: the status code, and the
    value of [response.json()], absent when decoding the body raises. *)
Record Response := {
  status_code : Z;
  json : option Json.t
}.

(** The fields [PegaException.__init__] stores. *)
Record PegaException := {
  base_url : string;
  endpoint : string;
  params : list (string * Json.t);
  response : Response;
  override_message : option string
}.

Inductive exception :=
| InvalidRequest (e : PegaException)
| NoMonitoringInfo (e : PegaException)
| ShadowCCExists (e : PegaException)
| MultipleErrors (details : Json.t)
| ValueError (message : string)
| Exception (arg : Json.t)
| Builtin (e : Json.builtin_error).

(** A call either returns a value or raises. *)
Inductive outcome (A : Type) :=
| Return (a : A)
| Raised (e : exception).
Arguments Return {A} a.
Arguments Raised {A} e.

Definition try_ {A B} (r : Json.builtin_error + A) (k : A -> outcome B)
  : outcome B :=
  match r with
  | inr a => k a
  | inl e => Raised (Builtin e)
  end.

Notation "'let*' x ':=' c 'in' k" := (try_ c (fun x => k))
  (at level 10, x name, c at level 100, k at level 200).

Definition error_map : list (string * (PegaException -> exception)) :=
  [("Error_NoMonitoringInfo", NoMonitoringInfo);
   ("Error_ShadowCC_Exists", ShadowCCExists)].

(** [handle_pega_exception]; [base_url] is the text [str(base_url)]. *)
Definition handle_pega_exception (base_url endpoint : string)
    (params : list (string * Json.t)) (response : Response)
  : outcome exception :=
  match json response with
  | None =>
      Raised (InvalidRequest
                {| base_url := base_url; endpoint := endpoint;
                   params := params; response := response;
                   override_message := Some "Invalid request." |})
  | Some content =>
      let* details := Json.get content "errorDetails" in
      if negb (Json.truthy details) then
        Raised (ValueError
                  "Cannot parse error message: no error details given.")
      else
        let* n := Json.len details in
        if (1 <? n)%nat then Raised (MultipleErrors details)
        else
          let* first := Json.getitem_0 details in
          let* message := Json.get first "message" in
          let* error := Json.dict_get error_map message in
          match error with
          | Some error =>
              Return (error {| base_url := base_url; endpoint := endpoint;
                               params := params; response := response;
                               override_message := None |})
          | None => Return (Exception details)
          end
  end.

End _exceptions.

(** ** Concrete inputs and collaborators used by the examples below *)

Module Samples.

(** Column names that are canonical already stay as they are, and a frame
    without encoded keys gains no column. *)
Definition keep_frame (lf : LazyFrame) : LazyFrame := lf.

(** A key extraction that decodes a [Treatment] key out of [Name]. *)
Definition extract_treatment (lf : LazyFrame) : LazyFrame :=
  with_columns lf
    [("Treatment", external ["Name"] String_ (fun _ => Ok (VStr "Offer1")))].

Definition parse_dates : Expr :=
  external ["SnapshotTime"] Datetime
    (fun vs => match vs with
               | [VStr _] => Ok (VDatetime 0)
               | [VNull] => Ok VNull
               | _ => Raise ComputeError
               end).

Definition by_predictor_name : Categorization :=
  CatCallable (fun _ =>
    external ["PredictorName"] String_ (fun _ => Ok (VStr "Primary"))).

Definition keep_left (m p : LazyFrame) : LazyFrame := m.

Definition arrow_file (df : LazyFrame) (path name : string) : result Path :=
  Ok (path ++ "/" ++ name ++ ".arrow").

Definition noon (n : nat) : datetime.t :=
  {| datetime.year := 2024; datetime.month := 3; datetime.day := 9;
     datetime.hour := 12; datetime.minute := 0; datetime.second := 7;
     datetime.microsecond := 45678 |}.

Definition model_schema : Schema :=
  [("ModelID", String_); ("Channel", String_); ("Name", String_);
   ("Positives", Int64); ("ResponseCount", Int64);
   ("SnapshotTime", Datetime)].

Definition model_row (id : string) (pos resp : Value) : Row :=
  [("ModelID", VStr id); ("Channel", VStr "Web"); ("Name", VStr "Offer");
   ("Positives", pos); ("ResponseCount", resp);
   ("SnapshotTime", VDatetime 0)].

Definition model_df : LazyFrame :=
  lazy {| schema := model_schema;
          rows := [model_row "m1" (VInt 5) (VInt 20);
                   model_row "m2" (VInt 0) (VInt 0);
                   model_row "m3" (VInt 5) (VInt 0);
                   model_row "m4" VNull (VInt 10);
                   model_row "m5" (VInt 150) (VInt 200)] |}.

(** A model export without a [SnapshotTime] column. *)
Definition model_df_no_snapshot : LazyFrame :=
  lazy {| schema := [("ModelID", String_); ("Positives", Int64);
                     ("ResponseCount", Int64)];
          rows := [[("ModelID", VStr "m1"); ("Positives", VInt 5);
                    ("ResponseCount", VInt 20)]] |}.

(** A model export without a [Positives] column. *)
Definition model_df_no_positives : LazyFrame :=
  lazy {| schema := [("ModelID", String_); ("ResponseCount", Int64);
                     ("SnapshotTime", Datetime)];
          rows := [[("ModelID", VStr "m1"); ("ResponseCount", VInt 20);
                    ("SnapshotTime", VDatetime 0)]] |}.

Definition predictor_schema : Schema :=
  [("ModelID", String_); ("PredictorName", String_);
   ("BinPositives", Int64); ("BinNegatives", Int64)].

Definition predictor_row (pos neg : Z) : Row :=
  [("ModelID", VStr "m1"); ("PredictorName", VStr "Age");
   ("BinPositives", VInt pos); ("BinNegatives", VInt neg)].

Definition predictor_df (pos neg : Z) : LazyFrame :=
  lazy {| schema := predictor_schema; rows := [predictor_row pos neg] |}.


(** A predictor export that is categorised already. *)
Definition categorized_df : LazyFrame :=
  lazy {| schema := (predictor_schema ++ [("PredictorCategory", String_)])%list;
          rows := [(predictor_row 3 7 ++
                    [("PredictorCategory", VStr "Custom")])%list] |}.

(** A predictor export without a [BinPositives] column. *)
Definition predictor_df_no_positives : LazyFrame :=
  lazy {| schema := [("ModelID", String_); ("PredictorName", String_);
                     ("BinNegatives", Int64)];
          rows := [[("ModelID", VStr "m1"); ("PredictorName", VStr "Age");
                    ("BinNegatives", VInt 7)]] |}.

(** A folder in which [read_ds_export] finds no export. *)
Definition empty_folder (filename base_path : string) : option LazyFrame :=
  None.




(** Responses of the Infinity API with a given decoded body. *)
Definition error_response (body : option Json.t) : _exceptions.Response :=
  {| _exceptions.status_code := 400; _exceptions.json := body |}.

Definition error_detail (message : string) : Json.t :=
  Json.Object [("message", Json.Str message);
               ("localizedValue", Json.Str "Request failed")].

Definition no_monitoring_body : Json.t :=
  Json.Object [("errorDetails",
                Json.Array [error_detail "Error_NoMonitoringInfo"])].

Definition two_errors_body : Json.t :=
  Json.Object [("errorDetails",
                Json.Array [error_detail "Error_NoMonitoringInfo";
                            error_detail "Error_ShadowCC_Exists"])].

(** A body that is a list of details, not an object holding one. *)
Definition bare_list_body : Json.t :=
  Json.Array [error_detail "Error_NoMonitoringInfo"].

End Samples.

(** ** Notions the statements below are phrased with *)

Definition present {A} (o : option A) : bool :=
  match o with
  | Some _ => true
  | None => false
  end.

(** The candidate context keys, with the conditional sixth. *)
Definition six_candidates : list string :=
  ["Channel"; "Direction"; "Issue"; "Group"; "Name"; "Treatment"].

(** A row satisfies a predicate when the predicate evaluates to true on it. *)
Definition satisfies (r : Row) (p : Expr) : bool :=
  match eval r p with
  | Ok (VBool true) => true
  | _ => false
  end.

(** The frame [_validate_model_data] has built just before the query is
    applied, for a normalised input whose schema is [s]. *)
Definition model_plan (extract : LazyFrame -> LazyFrame) (parse : Expr)
    (df : LazyFrame) (s : Schema) (extract_pyname_keys : bool) (t : DataType)
  : LazyFrame :=
  let df1 := if extract_pyname_keys && contains "Name" (names s)
             then extract df else df in
  let df2 := with_columns df1 [("SuccessRate", SuccessRate_expr)] in
  if negb (DataType_eqb t Datetime)
  then with_columns df2 [("SnapshotTime", parse)] else df2.

(** A decimal digit character. *)
Definition is_digit (c : ascii) : bool :=
  ((48 <=? nat_of_ascii c) && (nat_of_ascii c <=? 57))%nat.

(** [matches pattern s]: [s] has the shape of [pattern], where a [9] in the
    pattern stands for any decimal digit and every other character for
    itself. *)
Fixpoint matches (pattern s : string) : bool :=
  match pattern, s with
  | EmptyString, EmptyString => true
  | String p pattern', String c s' =>
      (if Ascii.eqb p "9" then is_digit c else Ascii.eqb p c)
      && matches pattern' s'
  | _, _ => false
  end.

(** The frame [_validate_predictor_data] has built before categorisation,
    for a normalised input whose schema is [s]. *)
Definition predictor_metrics (df : LazyFrame) (s : Schema) : LazyFrame :=
  let df1 := if negb (contains "BinResponseCount" (names s))
             then with_columns df [("BinResponseCount", BinResponseCount_expr)]
             else df in
  with_columns df1
    [("BinPropensity", BinPropensity_expr);
     ("BinAdjustedPropensity", BinAdjustedPropensity_expr)].

(** The expression a categorisation argument stands for at a call made after
    [calls] earlier invocations, and the invocations the call makes. *)
Definition categorization_expr (c : Categorization) (calls : nat) : Expr :=
  match c with
  | CatExpr e => e
  | CatCallable f => f calls
  end.

Definition invocations (c : Categorization) : nat :=
  match c with
  | CatExpr _ => 0
  | CatCallable _ => 1
  end.

(** A column of a materialised frame, row by row. *)
Definition column (k : string) (df : DataFrame) : list (option Value) :=
  map (lookup k) (rows df).

(** A cell that holds the whole number [n], in an integer column or in a
    float column. *)
Definition holds_count (v : Value) (n : Z) : Prop :=
  v = VInt n \/ v = VFloat (F64.of_int n).

(** The success rate as the specification words it: the ratio, and zero
    where the ratio is NaN. *)
Definition SuccessRate_spec (positives responses : F64.t) : F64.t :=
  let ratio := F64.div positives responses in
  if F64.is_nan ratio then F64.zero else ratio.


(** A column of the materialised model dataset of a construction, and of the
    materialised result of a predictor validation. *)
Definition model_column (k : string) (r : result (ADMDatamart.t * nat))
  : result (list (option Value)) :=
  dm <- r ;;
  match model_data (fst dm) with
  | Some lf => column k <$> collect lf
  | None => Ok []
  end.

Definition predictor_column (k : string) (r : result (option LazyFrame * nat))
  : result (list (option Value)) :=
  pd <- r ;;
  match fst pd with
  | Some lf => column k <$> collect lf
  | None => Ok []
  end.




(** A decoded object that can be a dictionary key: every one but a list
    and an object. *)
Definition hashable (v : Json.t) : bool :=
  match v with
  | Json.Array _ | Json.Object _ => false
  | _ => true
  end.

(** * Properties *)

Unset Implicit Arguments.

(** ** Results and association lists *)

Lemma bind_Ok {A B} (r : result A) (k : A -> result B) (b : B) :
  bind r k = Ok b -> exists a, r = Ok a /\ k a = Ok b.
Proof.
  destruct r as [a|e]; simpl; intro H; [exists a; auto | discriminate].
Qed.

Tactic Notation "inv_bind" hyp(H) "as" ident(a) ident(Ha) :=
  apply bind_Ok in H; destruct H as (a & Ha & H).

Lemma contains_In (k : string) (l : list string) :
  contains k l = true <-> In k l.
Proof.
  unfold contains. rewrite existsb_exists. split.
  - intros (x & Hx & Heq). apply String.eqb_eq in Heq. now subst.
  - intro H. exists k. split; [assumption | apply String.eqb_refl].
Qed.

Lemma lookup_upsert_eq {V} (k : string) (v : V) (l : list (string * V)) :
  lookup k (upsert k v l) = Some v.
Proof.
  induction l as [|[k' v'] l IH]; simpl.
  - now rewrite String.eqb_refl.
  - destruct (String.eqb k k') eqn:E; simpl.
    + now rewrite String.eqb_refl.
    + now rewrite E.
Qed.

Lemma lookup_upsert_ne {V} (k k0 : string) (v : V) (l : list (string * V)) :
  k <> k0 -> lookup k (upsert k0 v l) = lookup k l.
Proof.
  intro Hne. induction l as [|[k' v'] l IH]; simpl.
  - apply String.eqb_neq in Hne. now rewrite Hne.
  - destruct (String.eqb k0 k') eqn:E; simpl.
    + apply String.eqb_eq in E. subst k'.
      apply String.eqb_neq in Hne. now rewrite Hne.
    + now rewrite IH.
Qed.

Lemma map_result_Ok_In {A B} (f : A -> result B) (l : list A) (l' : list B) :
  map_result f l = Ok l' ->
  forall b, In b l' -> exists a, In a l /\ f a = Ok b.
Proof.
  revert l'. induction l as [|a l IH]; simpl; intros l' H b Hb.
  - inversion H; subst. contradiction.
  - inv_bind H as b0 Hb0. inv_bind H as bs Hbs. inversion H; subst.
    destruct Hb as [<-|Hb].
    + eauto.
    + destruct (IH _ Hbs _ Hb) as (x & Hx & Hfx). eauto.
Qed.

(** ** Binary64 facts *)

Lemma digits2_pos_bounds (m : positive) :
  2 ^ (Zpos (digits2_pos m) - 1) <= Zpos m < 2 ^ Zpos (digits2_pos m).
Proof.
  induction m as [m IH | m IH |]; simpl digits2_pos.
  - rewrite Pos2Z.inj_succ.
    replace (Z.succ (Zpos (digits2_pos m)) - 1) with (Z.succ (Zpos (digits2_pos m) - 1)) by lia.
    rewrite !Z.pow_succ_r by lia. lia.
  - rewrite Pos2Z.inj_succ.
    replace (Z.succ (Zpos (digits2_pos m)) - 1) with (Z.succ (Zpos (digits2_pos m) - 1)) by lia.
    rewrite !Z.pow_succ_r by lia. lia.
  - simpl. lia.
Qed.

Lemma digits2_pos_unique (m : positive) (k : Z) :
  2 ^ (k - 1) <= Zpos m < 2 ^ k -> Zpos (digits2_pos m) = k.
Proof.
  intros [Hlo Hhi]. pose proof (digits2_pos_bounds m) as [Hlo' Hhi'].
  assert (0 < k).
  { destruct (Z_lt_le_dec 0 k) as [|Hk]; [assumption|].
    assert (2 ^ k <= 1).
    { destruct (Z.eq_dec k 0) as [->|]; [simpl; lia|].
      rewrite Z.pow_neg_r by lia. lia. }
    lia. }
  assert (Zpos (digits2_pos m) - 1 < k).
  { apply (Z.pow_lt_mono_r_iff 2); lia. }
  assert (k - 1 < Zpos (digits2_pos m)).
  { apply (Z.pow_lt_mono_r_iff 2); lia. }
  lia.
Qed.

Lemma iter_pos_succ {A} (f : A -> A) (n : positive) (x : A) :
  iter_pos f (Pos.succ n) x = f (iter_pos f n x).
Proof.
  assert (Hcomm : forall n x, iter_pos f n (f x) = f (iter_pos f n x)).
  { clear. induction n as [n IH | n IH |]; intro x; simpl.
    - now rewrite !IH.
    - now rewrite !IH.
    - reflexivity. }
  revert x. induction n as [n IH | n IH |]; intro x; simpl.
  - rewrite !IH. rewrite !Hcomm. reflexivity.
  - now rewrite !Hcomm.
  - reflexivity.
Qed.

Lemma pos_iter_xO (m k : positive) :
  Zpos (Pos.iter xO m k) = Zpos m * 2 ^ Zpos k.
Proof.
  induction k as [|k IH] using Pos.peano_ind.
  - simpl. lia.
  - rewrite Pos.iter_succ, Pos2Z.inj_xO, IH, Pos2Z.inj_succ, Z.pow_succ_r by lia.
    lia.
Qed.



Lemma fexp_normal (e : Z) : -1074 <= e - 53 -> fexp 53 1024 e = e - 53.
Proof.
  unfold fexp, emin. lia.
Qed.

(** Rounding a 53-bit mantissa that is exact changes nothing. *)
Lemma binary_round_aux_exact (s : bool) (m : positive) (e : Z) :
  2 ^ 52 <= Zpos m < 2 ^ 53 -> -1074 <= e <= 971 ->
  binary_round_aux 53 1024 s (Zpos m) e loc_Exact = S754_finite s m e.
Proof.
  intros Hm He.
  assert (Hd : Zpos (digits2_pos m) = 53) by (apply digits2_pos_unique; lia).
  unfold binary_round_aux, shr_fexp. cbn [Zdigits2 shr_record_of_loc].
  rewrite Hd, fexp_normal by lia.
  replace (53 + e - 53 - e) with 0 by lia.
  cbn [shr shr_m loc_of_shr_record round_nearest_even Zdigits2].
  rewrite Hd, fexp_normal by lia.
  replace (53 + e - 53 - e) with 0 by lia.
  cbn [shr shr_m shr_record_of_loc].
  destruct (Z.leb_spec e (1024 - 53)); [reflexivity | lia].
Qed.

(** The binary64 of a positive integer below 2^53: a 53-bit mantissa and the
    exponent that scales it back. *)
Lemma of_int_normal (n : Z) :
  0 < n < 2 ^ 53 ->
  exists m e,
    F64.of_int n = S754_finite false m e /\
    2 ^ 52 <= Zpos m < 2 ^ 53 /\ -52 <= e <= 0 /\
    Zpos m = n * 2 ^ (- e) /\
    2 ^ (52 + e) <= n < 2 ^ (53 + e).
Proof.
  intros Hn. destruct n as [|n|n]; try lia.
  pose proof (digits2_pos_bounds n) as Hb.
  set (d := Zpos (digits2_pos n)) in *.
  assert (Hd : 1 <= d <= 53).
  { split; [unfold d; lia|].
    destruct (Z_lt_le_dec 53 d) as [Hgt|]; [|assumption].
    assert (2 ^ 53 <= 2 ^ (d - 1)) by (apply Z.pow_le_mono_r; lia). lia. }
  unfold F64.of_int, binary_normalize, binary_round, shl_align.
  fold d. rewrite fexp_normal by lia.
  replace (d + 0 - 53 - 0) with (d - 53) by lia.
  destruct (d - 53) as [|k|k] eqn:Hk; try lia.
  - exists n, 0. assert (d = 53) by lia.
    rewrite binary_round_aux_exact by (replace (52) with (d - 1) by lia; replace 53 with d by lia; lia).
    simpl (2 ^ (- 0)). replace (52 + 0) with (d - 1) by lia. replace (53 + 0) with d by lia.
    replace 52 with (d - 1) by lia. replace 53 with d at 2 by lia.
    repeat split; try lia.
  - exists (Pos.iter xO n k), (Z.neg k).
    assert (Hm : Zpos (Pos.iter xO n k) = Zpos n * 2 ^ Zpos k) by apply pos_iter_xO.
    assert (Hpow : 2 ^ (d - 1) * 2 ^ Zpos k = 2 ^ 52).
    { rewrite <- Z.pow_add_r by lia. f_equal. lia. }
    assert (Hpow' : 2 ^ d * 2 ^ Zpos k = 2 ^ 53).
    { rewrite <- Z.pow_add_r by lia. f_equal. lia. }
    assert (0 < 2 ^ Zpos k) by (apply Z.pow_pos_nonneg; lia).
    assert (Hr : 2 ^ 52 <= Zpos (Pos.iter xO n k) < 2 ^ 53).
    { rewrite Hm, <- Hpow, <- Hpow'. nia. }
    rewrite binary_round_aux_exact by lia.
    replace (- Z.neg k) with (Zpos k) by lia.
    replace (52 + Z.neg k) with (d - 1) by lia.
    replace (53 + Z.neg k) with d by lia.
    repeat split; try lia. f_equal. lia.
Qed.

Lemma new_location_exact (m r : Z) :
  new_location m r = loc_Exact <-> r = 0.
Proof.
  unfold new_location, new_location_even, new_location_odd.
  destruct (Z.even m); destruct (Z.eqb_spec r 0); split; try congruence; tauto.
Qed.

(** Division of two normal numbers: the quotient of the mantissas, scaled by
    2^53, is rounded. *)
Lemma div_normal (m1 m2 : positive) (e1 e2 : Z) :
  2 ^ 52 <= Zpos m1 < 2 ^ 53 -> 2 ^ 52 <= Zpos m2 < 2 ^ 53 ->
  -1021 <= e1 - e2 ->
  exists q r,
    Zpos m1 * 2 ^ 53 = q * Zpos m2 + r /\ 0 <= r < Zpos m2 /\
    2 ^ 52 <= q < 2 ^ 54 /\
    F64.div (S754_finite false m1 e1) (S754_finite false m2 e2) =
      binary_round_aux 53 1024 false q (e1 - e2 - 53) (new_location (Zpos m2) r).
Proof.
  intros H1 H2 He.
  assert (Hd1 : Zpos (digits2_pos m1) = 53) by (apply digits2_pos_unique; lia).
  assert (Hd2 : Zpos (digits2_pos m2) = 53) by (apply digits2_pos_unique; lia).
  unfold F64.div, SFdiv, SFdiv_core_binary. cbn [Zdigits2 xorb].
  rewrite Hd1, Hd2.
  replace (53 + e1 - (53 + e2)) with (e1 - e2) by lia.
  rewrite fexp_normal by lia.
  rewrite Z.min_l by lia.
  replace (e1 - e2 - (e1 - e2 - 53)) with 53 by lia.
  rewrite Z.shiftl_mul_pow2 by lia.
  destruct (Z.div_eucl (Zpos m1 * 2 ^ 53) (Zpos m2)) as [q r] eqn:E.
  exists q, r.
  assert (Hdm' : Zpos m1 * 2 ^ 53 = Zpos m2 * q + r /\ 0 <= r < Zpos m2).
  { pose proof (Z_div_mod (Zpos m1 * 2 ^ 53) (Zpos m2) ltac:(lia)) as Hx.
    rewrite E in Hx. exact Hx. }
  destruct Hdm' as [Heq Hr].
  split; [lia|]. split; [lia|]. split; [nia|]. reflexivity.
Qed.

Lemma round_nearest_even_bounds (m : Z) (l : location) :
  m <= round_nearest_even m l <= m + 1.
Proof.
  destruct l as [|[]]; simpl; try lia. destruct (Z.even m); lia.
Qed.

Lemma shr_1_pos (q : Z) (l : location) :
  0 < q ->
  exists h b s,
    shr_1 (shr_record_of_loc q l) = Build_shr_record h b s /\
    q = 2 * h + (if b then 1 else 0) /\ 0 <= h /\
    (l = loc_Exact -> s = false).
Proof.
  intro Hq. destruct q as [|q|q]; try lia.
  destruct q as [q|q|]; destruct l as [|[]]; simpl shr_record_of_loc;
    cbn [shr_1]; do 3 eexists; (split; [reflexivity|]);
    (split; [lia|]); (split; [lia|]); intro; try discriminate; reflexivity.
Qed.

Lemma shr_fexp_53 (q e : Z) (l : location) :
  2 ^ 52 <= q < 2 ^ 53 -> -1074 <= e ->
  shr_fexp 53 1024 q e l = (shr_record_of_loc q l, e).
Proof.
  intros Hq He. destruct q as [|q|q]; try lia.
  unfold shr_fexp. cbn [Zdigits2].
  rewrite (digits2_pos_unique q 53) by lia.
  rewrite fexp_normal by lia. replace (53 + e - 53 - e) with 0 by lia.
  reflexivity.
Qed.

Lemma shr_fexp_54 (q e : Z) (l : location) :
  2 ^ 53 <= q < 2 ^ 54 -> -1074 <= e ->
  shr_fexp 53 1024 q e l = (shr_1 (shr_record_of_loc q l), e + 1).
Proof.
  intros Hq He. destruct q as [|q|q]; try lia.
  unfold shr_fexp. cbn [Zdigits2].
  rewrite (digits2_pos_unique q 54) by lia.
  rewrite fexp_normal by lia. replace (54 + e - 53 - e) with 1 by lia.
  reflexivity.
Qed.

(** The second rounding step: a mantissa that the first step has brought to
    at most 2^53. *)
Lemma round_stage2 (r e : Z) :
  2 ^ 52 <= r <= 2 ^ 53 -> -1074 <= e <= 970 ->
  (let '(mrs, e') := shr_fexp 53 1024 r e loc_Exact in
   match shr_m mrs with
   | Z0 => S754_zero false
   | Zpos m =>
       if e' <=? 1024 - 53 then S754_finite false m e' else S754_infinity false
   | Zneg _ => S754_nan
   end) =
  if r <? 2 ^ 53 then S754_finite false (Z.to_pos r) e
  else S754_finite false 4503599627370496 (e + 1).
Proof.
  intros Hr He. destruct (Z.ltb_spec r (2 ^ 53)) as [Hlt|Hge].
  - rewrite shr_fexp_53 by lia. cbn [shr_record_of_loc shr_m].
    destruct r as [|r|r]; try lia.
    destruct (Z.leb_spec e (1024 - 53)); [reflexivity | lia].
  - assert (r = 2 ^ 53) by lia. subst r.
    rewrite shr_fexp_54 by lia.
    change (shr_m (shr_1 (shr_record_of_loc (2 ^ 53) loc_Exact)))
      with (Zpos 4503599627370496).
    cbv iota.
    destruct (Z.leb_spec (e + 1) (1024 - 53)); [reflexivity | lia].
Qed.

(** What rounding a quotient with 53 or 54 bits gives. *)
Lemma round_quotient (q e : Z) (l : location) :
  2 ^ 52 <= q < 2 ^ 54 -> -1074 <= e <= 960 ->
  exists m' e',
    binary_round_aux 53 1024 false q e l = S754_finite false m' e' /\
    2 ^ 52 <= Zpos m' < 2 ^ 53 /\
    ((q < 2 ^ 53 /\ e' = e /\ Zpos m' = round_nearest_even q l) \/
     (q < 2 ^ 53 /\ e' = e + 1 /\ Zpos m' = 2 ^ 52 /\
      round_nearest_even q l = 2 ^ 53) \/
     (2 ^ 53 <= q /\
      exists (h : Z) (b s : bool),
        q = 2 * h + (if b then 1 else 0) /\
        (l = loc_Exact -> s = false) /\
        let l' := loc_of_shr_record (Build_shr_record h b s) in
        (e' = e + 1 /\ Zpos m' = round_nearest_even h l' \/
         e' = e + 2 /\ Zpos m' = 2 ^ 52 /\
         round_nearest_even h l' = 2 ^ 53))).
Proof.
  intros Hq He. unfold binary_round_aux.
  destruct (Z.ltb_spec q (2 ^ 53)) as [Hlt|Hge].
  - rewrite shr_fexp_53 by lia.
    replace (loc_of_shr_record (shr_record_of_loc q l)) with l
      by (destruct l as [|[]]; reflexivity).
    replace (shr_m (shr_record_of_loc q l)) with q
      by (destruct l as [|[]]; reflexivity).
    pose proof (round_nearest_even_bounds q l) as Hb.
    rewrite round_stage2 by lia.
    destruct (Z.ltb_spec (round_nearest_even q l) (2 ^ 53)).
    + do 2 eexists. split; [reflexivity|]. rewrite Z2Pos.id by lia.
      split; [lia|]. left. auto.
    + do 2 eexists. split; [reflexivity|]. split; [lia|]. right. left.
      repeat split; lia.
  - rewrite shr_fexp_54 by lia.
    destruct (shr_1_pos q l ltac:(lia)) as (h & b & s & Hs & Hqh & Hh & Hex).
    rewrite Hs. cbn [shr_m].
    pose proof (round_nearest_even_bounds h
                  (loc_of_shr_record (Build_shr_record h b s))) as Hb.
    assert (2 ^ 52 <= h < 2 ^ 53) by (destruct b; lia).
    rewrite round_stage2 by lia.
    destruct (Z.ltb_spec (round_nearest_even h
                 (loc_of_shr_record (Build_shr_record h b s))) (2 ^ 53)).
    + do 2 eexists. split; [reflexivity|]. rewrite Z2Pos.id by lia.
      split; [lia|]. right. right. split; [assumption|].
      exists h, b, s. do 2 (split; [assumption|]). left. auto.
    + do 2 eexists. split; [reflexivity|]. split; [lia|].
      right. right. split; [assumption|].
      exists h, b, s. do 2 (split; [assumption|]). right. repeat split; lia.
Qed.

Lemma compare_one (m : positive) (e : Z) :
  2 ^ 52 <= Zpos m < 2 ^ 53 ->
  (e < -52 ->
   F64.ltb (S754_finite false m e) F64.one = true /\
   F64.leb (S754_finite false m e) F64.one = true) /\
  (e = -52 -> Zpos m = 2 ^ 52 ->
   F64.leb (S754_finite false m e) F64.one = true).
Proof.
  intro Hm. unfold F64.ltb, F64.leb, SFltb, SFleb, F64.one, SFcompare. split.
  - intro He. destruct (Z.compare_spec e (-52)); try lia; auto.
  - intros -> Hm2. assert (m = 4503599627370496%positive) by lia. subst m.
    reflexivity.
Qed.

Lemma round_le_one (q e : Z) (l : location) :
  2 ^ 52 <= q < 2 ^ 54 -> -1074 <= e <= -53 ->
  (e = -53 -> q <= 2 ^ 53 /\ (q = 2 ^ 53 -> l = loc_Exact)) ->
  exists m' e',
    binary_round_aux 53 1024 false q e l = S754_finite false m' e' /\
    F64.leb (S754_finite false m' e') F64.one = true.
Proof.
  intros Hq He H53.
  destruct (round_quotient q e l Hq ltac:(lia)) as (m' & e' & -> & Hm & Hc).
  exists m', e'. split; [reflexivity|].
  destruct (compare_one m' e' Hm) as [Hlt Heq].
  destruct Hc as [(Hq1 & -> & Hr) | [(Hq1 & -> & Hm2 & Hr) |
                   (Hq1 & h & b & s & Hqh & Hex & Hc)]].
  - apply Hlt. lia.
  - destruct (Z.eq_dec (e + 1) (-52)); [apply Heq; lia | apply Hlt; lia].
  - cbv zeta in Hc. destruct (Z.eq_dec e (-53)) as [E|E].
    + destruct (H53 E) as [Hle Hl]. assert (Hq2 : q = 2 ^ 53) by lia.
      rewrite (Hex (Hl Hq2)) in Hc.
      assert (b = false) by (destruct b; lia). subst b. simpl in Hc.
      destruct Hc as [[-> Hr] | (-> & Hm2 & Hr)]; [apply Heq; lia | lia].
    + destruct Hc as [[-> Hr] | (-> & Hm2 & Hr)]; [apply Hlt; lia|].
      destruct (Z.eq_dec (e + 2) (-52)); [apply Heq; lia | apply Hlt; lia].
Qed.





(** A non-negative count divided by a larger positive one, both below 2^53,
    gives a binary64 in [0, 1]. *)
Lemma div_counts_in_unit_interval (n d : Z) :
  0 <= n <= d -> 0 < d < 2 ^ 53 ->
  F64.is_nan (F64.div (F64.of_int n) (F64.of_int d)) = false /\
  F64.leb F64.zero (F64.div (F64.of_int n) (F64.of_int d)) = true /\
  F64.leb (F64.div (F64.of_int n) (F64.of_int d)) F64.one = true.
Proof.
  intros Hn Hd.
  destruct (of_int_normal d ltac:(lia)) as (m2 & e2 & Hof2 & Hm2 & He2 & Hv2 & Hb2).
  destruct (Z.eq_dec n 0) as [->|Hn0].
  - rewrite Hof2. repeat split; reflexivity.
  - destruct (of_int_normal n ltac:(lia))
      as (m1 & e1 & Hof1 & Hm1 & He1 & Hv1 & Hb1).
    assert (He : e1 <= e2).
    { assert (52 + e1 < 53 + e2); [|lia].
      apply (Z.pow_lt_mono_r_iff 2); lia. }
    destruct (div_normal m1 m2 e1 e2 Hm1 Hm2 ltac:(lia))
      as (q & r & Hqr & Hr & Hq & Hdiv).
    rewrite Hof1, Hof2, Hdiv.
    destruct (round_le_one q (e1 - e2 - 53) (new_location (Zpos m2) r) Hq
                ltac:(lia)) as (m' & e' & -> & Hle).
    { intro E. assert (e1 = e2) by lia. subst e2.
      assert (0 < 2 ^ (- e1)) by (apply Z.pow_pos_nonneg; lia).
      assert (Zpos m1 <= Zpos m2) by nia.
      split; [nia|]. intro Hq2. apply new_location_exact. nia. }
    split; [reflexivity|]. split; [reflexivity | assumption].
Qed.




Lemma holds_count_to_float (v : Value) (n : Z) :
  holds_count v n -> to_float v = Some (F64.of_int n).
Proof.
  intros [-> | ->]; reflexivity.
Qed.

Lemma fill_nan_value_float (f : F64.t) :
  fill_nan_value (VFloat f) (VInt 0)
  = Ok (VFloat (if F64.is_nan f then F64.zero else f)).
Proof.
  simpl. destruct (F64.is_nan f); reflexivity.
Qed.

Lemma SuccessRate_spec_not_nan (a b : F64.t) :
  F64.is_nan (SuccessRate_spec a b) = false.
Proof.
  unfold SuccessRate_spec. cbv zeta.
  destruct (F64.is_nan (F64.div a b)) eqn:E; [reflexivity | assumption].
Qed.

(** *** Conversion of whole numbers of any size *)

Lemma shr_1_spec (q : Z) (r st : bool) :
  0 <= q ->
  exists h b,
    shr_1 (Build_shr_record q r st) = Build_shr_record h b (r || st) /\
    q = 2 * h + (if b then 1 else 0) /\ 0 <= h.
Proof.
  intro Hq. destruct q as [|[p|p|]|p]; try lia; simpl.
  - exists 0, false. split; [reflexivity|]. lia.
  - exists (Zpos p), true. split; [reflexivity|]. lia.
  - exists (Zpos p), false. split; [reflexivity|]. lia.
  - exists 0, true. split; [reflexivity|]. lia.
Qed.

(** Shifting an exact mantissa right by [s] bits: the quotient, the bit
    shifted out last, and whether anything below it was set. *)
Lemma iter_shr_1_spec (s : positive) (m : Z) :
  0 <= m ->
  exists q r st low,
    iter_pos shr_1 s (Build_shr_record m false false)
    = Build_shr_record q r st /\
    0 <= q /\
    m = q * 2 ^ Zpos s + (if r then 2 ^ (Zpos s - 1) else 0) + low /\
    0 <= low < 2 ^ (Zpos s - 1) /\
    (st = false <-> low = 0).
Proof.
  intro Hm. induction s as [|s IH] using Pos.peano_ind.
  - cbn [iter_pos].
    destruct (shr_1_spec m false false Hm) as (h & b & -> & Hq & Hh).
    exists h, b, false, 0. split; [reflexivity|]. split; [assumption|].
    change (2 ^ 1) with 2. change (2 ^ (1 - 1)) with 1.
    split; [destruct b; lia|]. split; [lia|]. tauto.
  - destruct IH as (q & r & st & low & Hit & Hq & Hdec & Hlow & Hst).
    rewrite iter_pos_succ, Hit.
    destruct (shr_1_spec q r st Hq) as (h & b & -> & Hqh & Hh).
    set (P := 2 ^ (Zpos s - 1)) in *.
    assert (HP : 0 < P) by (apply Z.pow_pos_nonneg; lia).
    assert (H2P : 2 ^ Zpos s = 2 * P).
    { unfold P. rewrite <- Z.pow_succ_r by lia. f_equal. lia. }
    assert (H4P : 2 ^ Zpos (Pos.succ s) = 4 * P).
    { rewrite Pos2Z.inj_succ, Z.pow_succ_r by lia. lia. }
    assert (H2P' : 2 ^ (Zpos (Pos.succ s) - 1) = 2 * P).
    { rewrite <- H2P. f_equal. lia. }
    rewrite H4P, H2P'. rewrite H2P in Hdec.
    exists h, b, (r || st), ((if r then P else 0) + low).
    split; [reflexivity|]. split; [assumption|].
    split; [destruct b, r; lia|].
    split; [destruct r; lia|].
    destruct r, st; simpl; split; intro H; try reflexivity; try lia;
      try discriminate H.
Qed.

Lemma round_stage2_any (r e : Z) :
  2 ^ 52 <= r <= 2 ^ 53 -> -1074 <= e ->
  (let '(mrs, e') := shr_fexp 53 1024 r e loc_Exact in
   match shr_m mrs with
   | Z0 => S754_zero false
   | Zpos m =>
       if e' <=? 1024 - 53 then S754_finite false m e' else S754_infinity false
   | Zneg _ => S754_nan
   end) =
  if r <? 2 ^ 53
  then if e <=? 971 then S754_finite false (Z.to_pos r) e
       else S754_infinity false
  else if e + 1 <=? 971 then S754_finite false 4503599627370496 (e + 1)
       else S754_infinity false.
Proof.
  intros Hr He. destruct (Z.ltb_spec r (2 ^ 53)) as [Hlt|Hge].
  - rewrite shr_fexp_53 by lia. cbn [shr_record_of_loc shr_m].
    destruct r as [|r|r]; try lia. reflexivity.
  - assert (r = 2 ^ 53) by lia. subst r.
    rewrite shr_fexp_54 by lia.
    change (shr_m (shr_1 (shr_record_of_loc (2 ^ 53) loc_Exact)))
      with (Zpos 4503599627370496).
    reflexivity.
Qed.

(** The rounding of a shifted mantissa is within half a unit of it. *)
Lemma round_shifted_bounds (q low P : Z) (r st : bool) :
  0 < P -> 0 <= low < P -> (st = false <-> low = 0) ->
  let n := q * (2 * P) + (if r then P else 0) + low in
  let R := round_nearest_even q
             (loc_of_shr_record (Build_shr_record q r st)) in
  q <= R <= q + 1 /\
  (2 * R - 1) * (2 * P) <= 2 * n <= (2 * R + 1) * (2 * P).
Proof.
  intros HP Hlow Hst n R. subst n R.
  destruct r, st; cbn [loc_of_shr_record round_nearest_even].
  - split; [lia|]. nia.
  - assert (low = 0) by (apply Hst; reflexivity). subst low.
    destruct (Z.even q); split; try lia; nia.
  - split; [lia|]. nia.
  - split; [lia|]. nia.
Qed.

(** A whole number from 2^53 on is rounded to the nearest of the 53-bit
    mantissas of its binade, and overflows to infinity past the largest
    finite number. *)
Lemma of_int_large (n : Z) :
  2 ^ 53 <= n ->
  exists m e,
    2 ^ 52 <= Zpos m < 2 ^ 53 /\ 1 <= e /\
    (2 * Zpos m - 1) * 2 ^ e <= 2 * n <= (2 * Zpos m + 1) * 2 ^ e /\
    (Zpos m = 2 ^ 52 -> (4 * 2 ^ 52 - 1) * 2 ^ e <= 4 * n) /\
    F64.of_int n =
      if e <=? 971 then S754_finite false m e else S754_infinity false.
Proof.
  intro Hn. destruct n as [|p|p]; try lia.
  pose proof (digits2_pos_bounds p) as Hb.
  set (k := Zpos (digits2_pos p)) in *.
  assert (Hk : 54 <= k).
  { destruct (Z_lt_le_dec k 54) as [Hlt|]; [|assumption].
    assert (2 ^ k <= 2 ^ 53) by (apply Z.pow_le_mono_r; lia). lia. }
  destruct (k - 53) as [|s|s] eqn:Hs; try lia.
  destruct (iter_shr_1_spec s (Zpos p) ltac:(lia))
    as (q & r & st & low & Hit & Hq & Hdec & Hlow & Hst).
  set (P := 2 ^ (Zpos s - 1)) in *.
  assert (HP : 0 < P) by (apply Z.pow_pos_nonneg; lia).
  assert (H2P : 2 ^ Zpos s = 2 * P).
  { unfold P. rewrite <- Z.pow_succ_r by lia. f_equal. lia. }
  assert (Hlo : 2 ^ (k - 1) = 2 ^ 52 * (2 * P)).
  { rewrite <- H2P, <- Z.pow_add_r by lia. f_equal. lia. }
  assert (Hhi : 2 ^ k = 2 ^ 53 * (2 * P)).
  { rewrite <- H2P, <- Z.pow_add_r by lia. f_equal. lia. }
  rewrite H2P in Hdec. rewrite Hlo, Hhi in Hb.
  assert (Hqr : 2 ^ 52 <= q < 2 ^ 53) by (destruct r; nia).
  destruct (round_shifted_bounds q low P r st HP Hlow Hst) as [HR Hn2].
  cbv zeta in Hn2. rewrite <- Hdec in Hn2.
  set (R := round_nearest_even q
              (loc_of_shr_record (Build_shr_record q r st))) in *.
  assert (Hval : F64.of_int (Zpos p) =
                 if R <? 2 ^ 53
                 then if Zpos s <=? 971
                      then S754_finite false (Z.to_pos R) (Zpos s)
                      else S754_infinity false
                 else if Zpos s + 1 <=? 971
                      then S754_finite false 4503599627370496 (Zpos s + 1)
                      else S754_infinity false).
  { unfold F64.of_int, binary_normalize, binary_round, shl_align.
    fold k. rewrite fexp_normal by lia.
    replace (k + 0 - 53 - 0) with (Zpos s) by lia.
    assert (Hfirst : shr_fexp 53 1024 (Zpos p) 0 loc_Exact
                     = (Build_shr_record q r st, Zpos s)).
    { unfold shr_fexp. cbn [Zdigits2]. fold k. rewrite fexp_normal by lia.
      replace (k + 0 - 53 - 0) with (Zpos s) by lia.
      cbn [shr_record_of_loc shr]. rewrite Hit. reflexivity. }
    unfold binary_round_aux, F64.prec, F64.emax. rewrite Hfirst.
    cbn [shr_m]. fold R.
    exact (round_stage2_any R (Zpos s) ltac:(lia) ltac:(lia)). }
  rewrite Hval.
  destruct (Z.ltb_spec R (2 ^ 53)) as [Hlt|Hge].
  - exists (Z.to_pos R), (Zpos s). rewrite Z2Pos.id by lia.
    split; [lia|]. split; [lia|]. rewrite H2P.
    split; [lia|]. split; [|reflexivity].
    intro HR52. assert (q = 2 ^ 52) by lia. destruct r; nia.
  - assert (R = 2 ^ 53) by lia.
    exists 4503599627370496%positive, (Zpos s + 1).
    change (Zpos 4503599627370496) with (2 ^ 52).
    rewrite Z.pow_add_r, H2P by lia. change (2 ^ 1) with 2.
    split; [lia|]. split; [lia|]. split; [nia|].
    split; [intros _; nia | reflexivity].
Qed.
(** A positive whole number converts to a positive finite number or to
    plus infinity. *)
Lemma of_int_pos_shape (n : Z) :
  0 < n ->
  (exists m e, F64.of_int n = S754_finite false m e) \/
  F64.of_int n = S754_infinity false.
Proof.
  intro Hn. destruct (Z_lt_le_dec n (2 ^ 53)) as [Hs|Hl].
  - destruct (of_int_normal n ltac:(lia)) as (m & e & H & _). eauto.
  - destruct (of_int_large n Hl) as (m & e & _ & _ & _ & _ & H).
    rewrite H. destruct (e <=? 971); eauto.
Qed.

(** The conversion is monotone: of two positive whole numbers the smaller
    one converts to the smaller exponent, or to the same exponent and a
    mantissa that is not larger. *)
Lemma of_int_mono (n d : Z) :
  0 < n <= d ->
  (exists m1 e1 m2 e2,
      F64.of_int n = S754_finite false m1 e1 /\
      F64.of_int d = S754_finite false m2 e2 /\
      2 ^ 52 <= Zpos m1 < 2 ^ 53 /\ 2 ^ 52 <= Zpos m2 < 2 ^ 53 /\
      -52 <= e1 /\ e2 <= 971 /\
      (e1 < e2 \/ (e1 = e2 /\ Zpos m1 <= Zpos m2))) \/
  (F64.of_int d = S754_infinity false /\
   ((exists m e, F64.of_int n = S754_finite false m e) \/
    F64.of_int n = S754_infinity false)).
Proof.
  intros Hnd. destruct (Z_lt_le_dec d (2 ^ 53)) as [Hds|Hdl].
  - (* both are exact *)
    destruct (of_int_normal n ltac:(lia))
      as (m1 & e1 & Hof1 & Hm1 & He1 & Hv1 & Hb1).
    destruct (of_int_normal d ltac:(lia))
      as (m2 & e2 & Hof2 & Hm2 & He2 & Hv2 & Hb2).
    left. exists m1, e1, m2, e2. do 4 (split; [assumption|]).
    split; [lia|]. split; [lia|].
    assert (He : e1 <= e2).
    { assert (52 + e1 < 53 + e2); [|lia].
      apply (Z.pow_lt_mono_r_iff 2); lia. }
    destruct (Z.eq_dec e1 e2) as [->|Hne]; [right|left; lia].
    split; [reflexivity|].
    assert (0 < 2 ^ (- e2)) by (apply Z.pow_pos_nonneg; lia). nia.
  - destruct (of_int_large d Hdl)
      as (m2 & e2 & Hm2 & He2 & Hr2 & Hl2 & Hof2).
    destruct (Z_lt_le_dec n (2 ^ 53)) as [Hns|Hnl].
    + (* an exact number and a rounded one *)
      destruct (of_int_normal n ltac:(lia))
        as (m1 & e1 & Hof1 & Hm1 & He1 & _).
      rewrite Hof2. destruct (Z.leb_spec e2 971).
      * left. exists m1, e1, m2, e2. repeat split; try assumption; lia.
      * right. split; [reflexivity|]. left. eauto.
    + (* both are rounded *)
      destruct (Z.eq_dec n d) as [->|Hne].
      * rewrite Hof2. destruct (Z.leb_spec e2 971).
        -- left. exists m2, e2, m2, e2. repeat split; try assumption; lia.
        -- right. split; [reflexivity|]. right. reflexivity.
      * destruct (of_int_large n Hnl)
          as (m1 & e1 & Hm1 & He1 & Hr1 & Hl1 & Hof1).
        assert (Hlex : e1 < e2 \/ (e1 = e2 /\ Zpos m1 <= Zpos m2)).
        { destruct (Z.lt_trichotomy e1 e2) as [Hlt|[Heq|Hgt]].
          - left. assumption.
          - right. split; [assumption|]. subst e2.
            assert (HX : 0 < 2 ^ e1) by (apply Z.pow_pos_nonneg; lia).
            destruct (Z_le_gt_dec (Zpos m1) (Zpos m2)); [assumption|].
            exfalso. nia.
          - exfalso.
            assert (HX2 : 0 < 2 ^ e2) by (apply Z.pow_pos_nonneg; lia).
            assert (HX1 : 2 * 2 ^ e2 <= 2 ^ e1).
            { rewrite <- (Z.pow_succ_r 2 e2) by lia.
              apply Z.pow_le_mono_r; lia. }
            destruct (Z.eq_dec (Zpos m1) (2 ^ 52)) as [E|E].
            + specialize (Hl1 E). nia.
            + nia. }
        rewrite Hof1, Hof2. destruct (Z.leb_spec e2 971).
        -- left. exists m1, e1, m2, e2.
           assert (He1' : (e1 <=? 971) = true) by (apply Z.leb_le; lia).
           rewrite He1'. repeat split; try assumption; lia.
        -- right. split; [reflexivity|].
           destruct (e1 <=? 971); eauto.
Qed.

(** *** Quotients of ordered numbers *)

Lemma leb_one_small_exponent (m : positive) (e : Z) :
  e < -52 -> F64.leb (S754_finite false m e) F64.one = true.
Proof.
  intro He. unfold F64.leb, SFleb, F64.one, SFcompare.
  destruct (Z.compare_spec e (-52)); try lia; reflexivity.
Qed.

Lemma fexp_subnormal (e : Z) : e - 53 <= -1074 -> fexp 53 1024 e = -1074.
Proof. intro H. unfold fexp, emin. lia. Qed.

Lemma shr_fexp_subnormal (q : Z) (l : location) :
  0 < q < 2 ^ 53 ->
  shr_fexp 53 1024 q (-1074) l = (shr_record_of_loc q l, -1074).
Proof.
  intro Hq. destruct q as [|p|p]; try lia.
  pose proof (digits2_pos_bounds p) as Hb.
  set (k := Zpos (digits2_pos p)) in *.
  assert (Hk : k <= 53).
  { destruct (Z_le_gt_dec k 53) as [|Hgt]; [assumption|].
    assert (2 ^ 53 <= 2 ^ (k - 1)) by (apply Z.pow_le_mono_r; lia). lia. }
  unfold shr_fexp. cbn [Zdigits2]. fold k.
  rewrite fexp_subnormal by lia. reflexivity.
Qed.

(** A quotient in the subnormal range rounds to a number with the smallest
    exponent, or the one above it. *)
Lemma round_subnormal (q : Z) (l : location) :
  0 < q < 2 ^ 53 ->
  exists m' e',
    binary_round_aux 53 1024 false q (-1074) l = S754_finite false m' e' /\
    e' <= -1073.
Proof.
  intro Hq. unfold binary_round_aux.
  rewrite shr_fexp_subnormal by assumption.
  pose proof (round_nearest_even_bounds q l) as HR.
  assert (Hloc : loc_of_shr_record (shr_record_of_loc q l) = l)
    by (destruct l as [|[| |]]; reflexivity).
  assert (Hm : shr_m (shr_record_of_loc q l) = q)
    by (destruct l as [|[| |]]; reflexivity).
  rewrite Hloc, Hm.
  set (R := round_nearest_even q l) in *.
  destruct (Z_lt_le_dec R (2 ^ 53)) as [Hlt|Hge].
  - rewrite shr_fexp_subnormal by lia. cbn [shr_record_of_loc shr_m].
    destruct R as [|R|R]; try lia.
    exists R, (-1074). split; [reflexivity | lia].
  - assert (HR53 : R = 2 ^ 53) by lia. rewrite HR53.
    rewrite shr_fexp_54 by lia.
    exists 4503599627370496%positive, (-1074 + 1).
    split; [reflexivity | lia].
Qed.

(** The quotient of two normal numbers whose exponents are further apart
    than the normal range allows. *)
Lemma div_subnormal (m1 m2 : positive) (e1 e2 : Z) :
  2 ^ 52 <= Zpos m1 < 2 ^ 53 -> 2 ^ 52 <= Zpos m2 < 2 ^ 53 ->
  -1073 <= e1 - e2 < -1021 ->
  exists m' e',
    F64.div (S754_finite false m1 e1) (S754_finite false m2 e2)
    = S754_finite false m' e' /\ e' <= -1073.
Proof.
  intros H1 H2 He.
  assert (Hd1 : Zpos (digits2_pos m1) = 53) by (apply digits2_pos_unique; lia).
  assert (Hd2 : Zpos (digits2_pos m2) = 53) by (apply digits2_pos_unique; lia).
  destruct (e1 - e2 - -1074) as [|s|s] eqn:Hs; try lia.
  unfold F64.div, SFdiv, SFdiv_core_binary. cbn [Zdigits2 xorb].
  rewrite Hd1, Hd2.
  replace (53 + e1 - (53 + e2)) with (e1 - e2) by lia.
  rewrite fexp_subnormal by lia.
  rewrite Z.min_l by lia. rewrite Hs.
  rewrite Z.shiftl_mul_pow2 by lia.
  assert (HS : 2 <= 2 ^ Zpos s <= 2 ^ 52).
  { split.
    - change 2 with (2 ^ 1) at 1. apply Z.pow_le_mono_r; lia.
    - apply Z.pow_le_mono_r; lia. }
  destruct (Z.div_eucl (Zpos m1 * 2 ^ Zpos s) (Zpos m2)) as [q r] eqn:E.
  assert (Hdm : Zpos m1 * 2 ^ Zpos s = Zpos m2 * q + r /\ 0 <= r < Zpos m2).
  { pose proof (Z_div_mod (Zpos m1 * 2 ^ Zpos s) (Zpos m2) ltac:(lia)) as Hx.
    rewrite E in Hx. exact Hx. }
  destruct Hdm as [Heq Hr].
  apply round_subnormal. nia.
Qed.

(** The quotient of two positive normal numbers of which the first is not
    the larger one lies in [0, 1]. *)
Lemma div_ordered_in_unit_interval (m1 m2 : positive) (e1 e2 : Z) :
  2 ^ 52 <= Zpos m1 < 2 ^ 53 -> 2 ^ 52 <= Zpos m2 < 2 ^ 53 ->
  -52 <= e1 -> e2 <= 971 ->
  e1 < e2 \/ (e1 = e2 /\ Zpos m1 <= Zpos m2) ->
  let f := F64.div (S754_finite false m1 e1) (S754_finite false m2 e2) in
  F64.is_nan f = false /\
  F64.leb F64.zero f = true /\ F64.leb f F64.one = true.
Proof.
  intros Hm1 Hm2 He1 He2 Hlex f. subst f.
  destruct (Z_lt_le_dec (e1 - e2) (-1021)) as [Hsub|Hnorm].
  - destruct (div_subnormal m1 m2 e1 e2 Hm1 Hm2 ltac:(lia))
      as (m' & e' & -> & He').
    split; [reflexivity|]. split; [reflexivity|].
    apply leb_one_small_exponent. lia.
  - destruct (div_normal m1 m2 e1 e2 Hm1 Hm2 Hnorm)
      as (q & r & Hqr & Hr & Hq & ->).
    destruct (round_le_one q (e1 - e2 - 53) (new_location (Zpos m2) r) Hq
                ltac:(lia)) as (m' & e' & -> & Hle).
    { intro E. assert (e1 = e2) by lia. subst e2.
      assert (Zpos m1 <= Zpos m2) by lia.
      split; [nia|]. intro Hq2. apply new_location_exact. nia. }
    split; [reflexivity|]. split; [reflexivity | assumption].
Qed.

(** The success rate of whole-number counts of any size. *)
Lemma SuccessRate_spec_whole_numbers (n d : Z) :
  0 <= n <= d ->
  F64.leb F64.zero (SuccessRate_spec (F64.of_int n) (F64.of_int d)) = true /\
  F64.leb (SuccessRate_spec (F64.of_int n) (F64.of_int d)) F64.one = true.
Proof.
  intros Hnd. destruct (Z.eq_dec d 0) as [->|Hd0].
  - assert (n = 0) by lia. subst n. split; reflexivity.
  - destruct (Z.eq_dec n 0) as [->|Hn0].
    + destruct (of_int_pos_shape d ltac:(lia)) as [(m & e & ->)| ->];
        split; reflexivity.
    + destruct (of_int_mono n d ltac:(lia))
        as [(m1 & e1 & m2 & e2 & -> & -> & Hm1 & Hm2 & He1 & He2 & Hlex)
           |[-> [(m & e & ->)| ->]]].
      * destruct (div_ordered_in_unit_interval m1 m2 e1 e2 Hm1 Hm2 He1 He2
                    Hlex) as (Hnan & H0 & H1).
        unfold SuccessRate_spec. cbv zeta. rewrite Hnan. auto.
      * split; reflexivity.
      * split; reflexivity.
Qed.

(** A positive count over no responses. *)
Lemma SuccessRate_spec_over_zero (n : Z) :
  0 < n -> SuccessRate_spec (F64.of_int n) (F64.of_int 0) = F64.inf.
Proof.
  intro Hn.
  destruct (of_int_pos_shape n Hn) as [(m & e & ->)| ->]; reflexivity.
Qed.

(** ** Lazy frames: schema resolution agrees with materialisation *)

Lemma collect_collect_schema (lf : LazyFrame) (df : DataFrame) :
  collect lf = Ok df -> collect_schema lf = Ok (schema df).
Proof.
  revert df. induction lf as [d | lf IH named | lf IH p]; simpl; intros df H.
  - now inversion H.
  - inv_bind H as d0 Hd0. inv_bind H as s Hs. inv_bind H as rs Hrs.
    inversion H; subst; simpl. rewrite (IH _ Hd0). simpl. exact Hs.
  - inv_bind H as d0 Hd0. inv_bind H as s Hs. inv_bind H as rs Hrs.
    inversion H; subst; simpl. rewrite (IH _ Hd0). simpl. exact Hs.
Qed.

Lemma collect_schema_Raise_collect (lf : LazyFrame) (e : exn) :
  collect_schema lf = Raise e -> exists e', collect lf = Raise e'.
Proof.
  intro H. destruct (collect lf) as [df|e'] eqn:E; [|eauto].
  apply collect_collect_schema in E. congruence.
Qed.

(** A failure below a stack of filters stays a failure. *)
Lemma collect_schema_filters_Raise (ps : list Expr) (lf : LazyFrame) (e : exn) :
  collect_schema lf = Raise e ->
  collect_schema (fold_left filter ps lf) = Raise e.
Proof.
  revert lf. induction ps as [|p ps IH]; simpl; intros lf H; [assumption|].
  apply IH. simpl. now rewrite H.
Qed.

Lemma collect_schema_apply_query_Raise (q : option QUERY) (lf : LazyFrame) (e : exn) :
  collect_schema lf = Raise e ->
  collect_schema (_apply_query lf q) = Raise e.
Proof.
  destruct q as [ps|]; simpl; [apply collect_schema_filters_Raise | auto].
Qed.

Lemma collect_schema_with_column_Raise lf s n e err :
  collect_schema lf = Ok s -> dtype s e = Raise err ->
  collect_schema (with_columns lf [(n, e)]) = Raise err.
Proof.
  intros Hs He. simpl. rewrite Hs. simpl.
  unfold with_columns_schema, named_dtypes. simpl. rewrite He. reflexivity.
Qed.

Lemma collect_schema_with_columns_below_Raise lf named err :
  collect_schema lf = Raise err ->
  collect_schema (with_columns lf named) = Raise err.
Proof.
  intro H. simpl. rewrite H. reflexivity.
Qed.

(** ** Query filters *)

Lemma keeps_satisfies (p : Expr) (r : Row) (b : bool) :
  keeps p r = Ok b -> satisfies r p = b.
Proof.
  unfold keeps, satisfies. destruct (eval r p) as [v|e]; simpl; [|discriminate].
  destruct v; try discriminate; intro H; inversion H; subst; try reflexivity.
  now destruct b.
Qed.

Lemma filter_rows_Ok (p : Expr) (rs rs' : list Row) :
  filter_rows p rs = Ok rs' ->
  rs' = List.filter (fun r => satisfies r p) rs.
Proof.
  revert rs'. induction rs as [|r rs IH]; simpl; intros rs' H.
  - now inversion H.
  - inv_bind H as b Hb. inv_bind H as rest Hrest. inversion H; subst.
    rewrite (keeps_satisfies _ _ _ Hb), <- (IH _ Hrest). reflexivity.
Qed.

Lemma filter_rows_total (p : Expr) (rs : list Row) :
  (forall r, In r rs -> exists b, keeps p r = Ok b) ->
  exists rs', filter_rows p rs = Ok rs'.
Proof.
  induction rs as [|r rs IH]; simpl; intro H; [eauto|].
  destruct (H r (or_introl eq_refl)) as (b & Hb). rewrite Hb. simpl.
  destruct IH as (rest & Hrest); [auto|]. rewrite Hrest. simpl. eauto.
Qed.

Lemma filter_all_true {A} (l : list A) : List.filter (fun _ => true) l = l.
Proof.
  induction l as [|a l IH]; simpl; congruence.
Qed.

Lemma filter_filter {A} (f g : A -> bool) (l : list A) :
  List.filter g (List.filter f l) = List.filter (fun a => f a && g a) l.
Proof.
  induction l as [|a l IH]; simpl; [reflexivity|].
  destruct (f a); simpl; [destruct (g a)|]; simpl; congruence.
Qed.

Lemma collect_filter_Ok (lf : LazyFrame) (p : Expr) (df : DataFrame) :
  collect (filter lf p) = Ok df ->
  exists df0,
    collect lf = Ok df0 /\ schema df = schema df0 /\
    rows df = List.filter (fun r => satisfies r p) (rows df0).
Proof.
  simpl. intro H. inv_bind H as df0 Hdf0. inv_bind H as s Hs.
  inv_bind H as rs Hrs. inversion H; subst; simpl. exists df0.
  split; [assumption|]. split; [| now apply filter_rows_Ok].
  unfold filter_schema in Hs. inv_bind Hs as t Ht.
  destruct (DataType_eqb t Boolean); now inversion Hs.
Qed.

(** What a stack of filters materialises to. *)
Lemma collect_filters_Ok (ps : list Expr) (lf : LazyFrame) (df : DataFrame) :
  collect (fold_left filter ps lf) = Ok df ->
  exists df0,
    collect lf = Ok df0 /\ schema df = schema df0 /\
    rows df = List.filter (fun r => forallb (satisfies r) ps) (rows df0).
Proof.
  revert lf. induction ps as [|p ps IH]; simpl; intros lf H.
  - exists df. rewrite filter_all_true. auto.
  - destruct (IH _ H) as (df1 & H1 & Hs1 & Hr1).
    destruct (collect_filter_Ok _ _ _ H1) as (df0 & H0 & Hs0 & Hr0).
    exists df0. rewrite Hr1, Hr0, filter_filter. split; [assumption|].
    split; [congruence | reflexivity].
Qed.

Lemma collect_filters_total (ps : list Expr) (lf : LazyFrame) (df0 : DataFrame) :
  collect lf = Ok df0 ->
  (forall p, In p ps -> dtype (schema df0) p = Ok Boolean) ->
  (forall p r, In p ps -> In r (rows df0) -> exists b, keeps p r = Ok b) ->
  exists df, collect (fold_left filter ps lf) = Ok df.
Proof.
  revert lf df0. induction ps as [|p ps IH]; simpl; intros lf df0 H0 Ht Hk.
  - eauto.
  - destruct (filter_rows_total p (rows df0)) as (rs & Hrs); [auto|].
    apply IH with (df0 := {| schema := schema df0; rows := rs |}).
    + simpl. rewrite H0. simpl. unfold filter_schema.
      rewrite (Ht p (or_introl eq_refl)). simpl. rewrite Hrs. reflexivity.
    + simpl. auto.
    + simpl. intros p' r Hp' Hr. apply (Hk p' r); [auto|].
      rewrite (filter_rows_Ok _ _ _ Hrs) in Hr. apply filter_In in Hr. tauto.
Qed.

(** ** Rows of a materialised [with_columns] *)

Ltac str_ne :=
  let H := fresh in
  intro H; apply String.eqb_eq in H; vm_compute in H; discriminate H.

Lemma collect_with_columns_Ok lf named df :
  collect (with_columns lf named) = Ok df ->
  exists df0,
    collect lf = Ok df0 /\
    with_columns_schema (schema df0) named = Ok (schema df) /\
    map_result (with_columns_row named) (rows df0) = Ok (rows df).
Proof.
  simpl. intro H. inv_bind H as df0 Hdf0. inv_bind H as s Hs.
  inv_bind H as rs Hrs. inversion H; subst; simpl. eauto.
Qed.

Lemma with_column_row_Ok n e r r' :
  with_columns_row [(n, e)] r = Ok r' ->
  exists v, eval r e = Ok v /\ r' = upsert n v r.
Proof.
  unfold with_columns_row, named_values. simpl. intro H.
  inv_bind H as vs Hvs. inv_bind Hvs as nv Hnv. inv_bind Hnv as v Hv.
  inversion Hnv; subst. inversion Hvs; subst. inversion H; subst.
  exists v. split; [assumption | reflexivity].
Qed.

(** The rows of the frame a single-column [with_columns] materialises to. *)
Lemma collect_with_column_rows lf n e df row :
  collect (with_columns lf [(n, e)]) = Ok df -> In row (rows df) ->
  exists df0 r0 v,
    collect lf = Ok df0 /\ In r0 (rows df0) /\
    eval r0 e = Ok v /\ row = upsert n v r0.
Proof.
  intros H Hin. apply collect_with_columns_Ok in H.
  destruct H as (df0 & H0 & _ & Hrows).
  destruct (map_result_Ok_In _ _ _ Hrows _ Hin) as (r0 & Hr0 & Hrow).
  apply with_column_row_Ok in Hrow. destruct Hrow as (v & Hv & ->).
  exists df0, r0, v. auto.
Qed.

Lemma collect_apply_query_rows lf q df row :
  collect (_apply_query lf q) = Ok df -> In row (rows df) ->
  exists df0, collect lf = Ok df0 /\ In row (rows df0).
Proof.
  destruct q as [ps|]; simpl; intros H Hin; [|eauto].
  apply collect_filters_Ok in H. destruct H as (df0 & H0 & _ & Hr).
  rewrite Hr in Hin. apply filter_In in Hin. exists df0. tauto.
Qed.

(** ** The success rate of a validated model row *)

Lemma eval_SuccessRate_expr r sr :
  eval r SuccessRate_expr = Ok sr ->
  exists pos rc x,
    lookup "Positives" r = Some pos /\ lookup "ResponseCount" r = Some rc /\
    truediv_value pos rc = Ok x /\ fill_nan_value x (VInt 0) = Ok sr.
Proof.
  unfold SuccessRate_expr. simpl. unfold get_column. intro H.
  destruct (lookup "Positives" r) as [pos|]; [|discriminate].
  destruct (lookup "ResponseCount" r) as [rc|]; [|discriminate].
  simpl in H. inv_bind H as x Hx. exists pos, rc, x. auto.
Qed.

Lemma model_plan_rows extract parse lf s e t q out row :
  collect (_apply_query (model_plan extract parse lf s e t) q) = Ok out ->
  In row (rows out) ->
  exists pos rc x sr,
    lookup "Positives" row = Some pos /\
    lookup "ResponseCount" row = Some rc /\
    lookup "SuccessRate" row = Some sr /\
    truediv_value pos rc = Ok x /\ fill_nan_value x (VInt 0) = Ok sr.
Proof.
  intros H Hin. apply collect_apply_query_rows with (row := row) in H; [|assumption].
  destruct H as (df1 & H1 & Hin1). unfold model_plan in H1.
  assert (Hsr : forall df2 row2,
             collect (with_columns
                        (if e && contains "Name" (names s) then extract lf else lf)
                        [("SuccessRate", SuccessRate_expr)]) = Ok df2 ->
             In row2 (rows df2) ->
             exists pos rc x sr,
               lookup "Positives" row2 = Some pos /\
               lookup "ResponseCount" row2 = Some rc /\
               lookup "SuccessRate" row2 = Some sr /\
               truediv_value pos rc = Ok x /\
               fill_nan_value x (VInt 0) = Ok sr).
  { intros df2 row2 H2 Hin2.
    destruct (collect_with_column_rows _ _ _ _ _ H2 Hin2)
      as (df0 & r0 & sr & _ & _ & Hev & ->).
    destruct (eval_SuccessRate_expr _ _ Hev) as (pos & rc & x & Hp & Hr & Hx & Hf).
    exists pos, rc, x, sr.
    rewrite lookup_upsert_eq, !lookup_upsert_ne by str_ne. auto. }
  destruct (negb (DataType_eqb t Datetime)).
  - destruct (collect_with_column_rows _ _ _ _ _ H1 Hin1)
      as (df2 & r2 & v & H2 & Hin2 & _ & ->).
    destruct (Hsr _ _ H2 Hin2) as (pos & rc & x & sr & Hp & Hr & Hs & Hx & Hf).
    exists pos, rc, x, sr. rewrite !lookup_upsert_ne by str_ne. auto.
  - eauto.
Qed.

Lemma truediv_value_null pos rc x :
  pos = VNull \/ rc = VNull -> truediv_value pos rc = Ok x -> x = VNull.
Proof.
  intros [-> | ->] H.
  - destruct rc; simpl in H; congruence.
  - destruct pos; simpl in H; congruence.
Qed.

Lemma truediv_value_numeric pos rc a b :
  to_float pos = Some a -> to_float rc = Some b ->
  truediv_value pos rc = Ok (VFloat (F64.div a b)).
Proof.
  destruct pos; simpl; try discriminate; intro Ha; inversion Ha; subst;
    destruct rc; simpl; try discriminate; intro Hb; inversion Hb; subst;
    reflexivity.
Qed.

(** ** Columns a [with_columns] does not name *)

Lemma lookup_upserts_notin {V} (k : string) (kvs l : list (string * V)) :
  ~ In k (names kvs) -> lookup k (upserts kvs l) = lookup k l.
Proof.
  unfold upserts. revert l. induction kvs as [|[k' v'] kvs IH]; simpl; intros l H.
  - reflexivity.
  - rewrite IH by tauto. apply lookup_upsert_ne. intuition congruence.
Qed.

Lemma named_values_names r named vs :
  named_values r named = Ok vs -> names vs = names named.
Proof.
  unfold named_values. revert vs.
  induction named as [|[n e] named IH]; simpl; intros vs H.
  - now inversion H.
  - inv_bind H as nv Hnv. inv_bind H as rest Hrest. inversion H; subst.
    inv_bind Hnv as v Hv. inversion Hnv; subst. simpl.
    now rewrite (IH _ Hrest).
Qed.

Lemma map_result_map {A B C} (f : A -> result B) (g : A -> C) (h : B -> C)
    (l : list A) (l' : list B) :
  (forall a b, f a = Ok b -> h b = g a) ->
  map_result f l = Ok l' -> map h l' = map g l.
Proof.
  intro Hfg. revert l'. induction l as [|a l IH]; simpl; intros l' H.
  - now inversion H.
  - inv_bind H as b Hb. inv_bind H as bs Hbs. inversion H; subst. simpl.
    now rewrite (Hfg _ _ Hb), (IH _ Hbs).
Qed.

Lemma collect_with_columns_column lf named df k :
  collect (with_columns lf named) = Ok df -> ~ In k (names named) ->
  exists df0, collect lf = Ok df0 /\ column k df = column k df0.
Proof.
  intros H Hk. apply collect_with_columns_Ok in H.
  destruct H as (df0 & H0 & _ & Hrows). exists df0. split; [assumption|].
  unfold column. eapply map_result_map; [|exact Hrows].
  intros r r' Hr. unfold with_columns_row in Hr. inv_bind Hr as vs Hvs.
  inversion Hr; subst. apply lookup_upserts_notin.
  now rewrite (named_values_names _ _ _ Hvs).
Qed.

Lemma with_columns_row2_Ok n1 e1 n2 e2 r r' :
  with_columns_row [(n1, e1); (n2, e2)] r = Ok r' ->
  exists v1 v2,
    eval r e1 = Ok v1 /\ eval r e2 = Ok v2 /\
    r' = upsert n2 v2 (upsert n1 v1 r).
Proof.
  unfold with_columns_row, named_values. simpl. intro H.
  inv_bind H as vs Hvs. inv_bind Hvs as nv1 Hnv1. inv_bind Hnv1 as v1 Hv1.
  inv_bind Hvs as rest Hrest. inv_bind Hrest as nv2 Hnv2.
  inv_bind Hnv2 as v2 Hv2.
  inversion Hnv1; inversion Hnv2; inversion Hrest; inversion Hvs;
    inversion H; subst.
  exists v1, v2. auto.
Qed.

(** ** The adjusted propensity of a validated predictor row *)





(** ** Context keys *)

Lemma filter_candidates (ns : list string) :
  List.filter (fun k => contains k ns)
    (if contains "Treatment" ns
     then (candidate_keys ++ ["Treatment"])%list else candidate_keys)
  = List.filter (fun k => contains k ns) six_candidates.
Proof.
  unfold candidate_keys, six_candidates. simpl.
  destruct (contains "Treatment" ns) eqn:E; simpl; rewrite ?E; reflexivity.
Qed.

Section DatamartProperties.

Variable _polars_capitalize : LazyFrame -> LazyFrame.
Variable _extract_keys : LazyFrame -> LazyFrame.
Variable parse_pega_date_time_formats : Expr.
Variable default_predictor_categorization : Categorization.
Variable join_model_predictor : LazyFrame -> LazyFrame -> LazyFrame.

Local Abbreviation validate_model :=
  (_validate_model_data _polars_capitalize _extract_keys
     parse_pega_date_time_formats).
Local Abbreviation validate_predictor :=
  (_validate_predictor_data _polars_capitalize
     default_predictor_categorization).
Local Abbreviation init :=
  (__init__ _polars_capitalize _extract_keys parse_pega_date_time_formats
     default_predictor_categorization join_model_predictor).

Lemma validate_model_Some keys df q e r :
  validate_model keys (Some df) q e = Ok r ->
  exists s t,
    collect_schema (_polars_capitalize df) = Ok s /\
    lookup "SnapshotTime" s = Some t /\
    r = (Some (_apply_query
                 (model_plan _extract_keys parse_pega_date_time_formats
                    (_polars_capitalize df) s e t) q),
         List.filter (fun k => contains k (names s))
           (if contains "Treatment" (names s)
            then (keys ++ ["Treatment"])%list else keys)).
Proof.
  unfold _validate_model_data. intro H.
  inv_bind H as s Hs. inv_bind H as t Ht.
  unfold schema_getitem in Ht.
  destruct (lookup "SnapshotTime" s) as [t'|] eqn:Hl; [|discriminate].
  inversion Ht; subst t'. exists s, t. repeat split; auto.
  inversion H. reflexivity.
Qed.

Lemma init_Ok m p q e calls dm calls' :
  init m p q e calls = Ok (dm, calls') ->
  exists md keys pd,
    validate_model candidate_keys m q e = Ok (md, keys) /\
    validate_predictor p calls = Ok (pd, calls') /\
    dm = {| context_keys := keys; model_data := md; predictor_data := pd;
            combined_data := _combine_data join_model_predictor md pd |}.
Proof.
  unfold __init__. intro H.
  inv_bind H as mk Hmk. inv_bind H as pc Hpc. inversion H; subst.
  destruct mk as [md keys], pc as [pd c]. simpl. eauto 6.
Qed.

Lemma init_context_keys df p q e calls dm calls' :
  init (Some df) p q e calls = Ok (dm, calls') ->
  exists s,
    collect_schema (_polars_capitalize df) = Ok s /\
    context_keys dm =
      List.filter (fun k => contains k (names s)) six_candidates /\
    forall k, In k (context_keys dm) <->
              In k six_candidates /\ In k (names s).
Proof.
  intro H. apply init_Ok in H. destruct H as (md & keys & pd & Hm & _ & ->).
  apply validate_model_Some in Hm. destruct Hm as (s & t & Hs & _ & Hr).
  inversion Hr; subst. exists s. simpl. rewrite filter_candidates.
  split; [assumption|]. split; [reflexivity|].
  intro k. rewrite filter_In, contains_In. reflexivity.
Qed.

(** C3.  After a successful construction with a model dataset, the context
    keys are the six candidates, in their order, filtered to the columns of
    the normalised model schema; so they contain exactly the candidates that
    are in the schema, and [Treatment] exactly when the schema has it.
    Without a model dataset they are the five unfiltered candidates. *)
Theorem context_keys_after_construction m p q e calls dm calls' :
  init m p q e calls = Ok (dm, calls') ->
  match m with
  | Some df =>
      exists s,
        collect_schema (_polars_capitalize df) = Ok s /\
        context_keys dm =
          List.filter (fun k => contains k (names s)) six_candidates /\
        (forall k, In k (context_keys dm) <->
                   In k six_candidates /\ In k (names s)) /\
        (In "Treatment" (context_keys dm) <-> In "Treatment" (names s))
  | None =>
      context_keys dm = ["Channel"; "Direction"; "Issue"; "Group"; "Name"]
  end.
Proof.
  intro H. destruct m as [df|].
  - destruct (init_context_keys _ _ _ _ _ _ _ H) as (s & Hs & Hk & Hin).
    exists s. do 3 (split; [assumption|]). rewrite Hin. simpl. tauto.
  - apply init_Ok in H. destruct H as (md & keys & pd & Hm & _ & ->).
    simpl in Hm. inversion Hm. reflexivity.
Qed.

(** C4.  After a successful construction in which the model dataset or the
    predictor dataset is absent, the combined dataset is absent, and each of
    the two datasets is present exactly when its input was: with only the
    predictor data absent, the model dataset is still populated. *)
Theorem combined_absent_if_either_absent m p q e calls dm calls' :
  init m p q e calls = Ok (dm, calls') ->
  m = None \/ p = None ->
  combined_data dm = None /\
  present (model_data dm) = present m /\
  present (predictor_data dm) = present p.
Proof.
  intros H Habs. apply init_Ok in H.
  destruct H as (md & keys & pd & Hm & Hp & ->). simpl.
  assert (Hpm : present md = present m).
  { destruct m as [df|].
    - apply validate_model_Some in Hm.
      destruct Hm as (s & t & _ & _ & Hr). now inversion Hr.
    - now inversion Hm. }
  assert (Hpp : present pd = present p).
  { destruct p as [df|].
    - unfold _validate_predictor_data in Hp. inv_bind Hp as s Hs.
      destruct (negb (contains "PredictorCategory" (names s)));
        [destruct (apply_predictor_categorization _ _ _)|];
        now inversion Hp.
    - now inversion Hp. }
  repeat split; auto.
  destruct Habs as [-> | ->]; simpl in *.
  - destruct md; [discriminate | reflexivity].
  - destruct pd; [discriminate | destruct md; reflexivity].
Qed.

(** C10.  The context keys are computed from the schema captured before
    key extraction runs: a column that is not in that schema (a [Treatment]
    produced by the extraction, for one) is never a context key, and the
    keys are the same whatever the extraction does. *)
Theorem extracted_columns_never_context_keys df p q e calls dm calls' s :
  init (Some df) p q e calls = Ok (dm, calls') ->
  collect_schema (_polars_capitalize df) = Ok s ->
  (forall k, ~ In k (names s) -> ~ In k (context_keys dm)) /\
  (In "Treatment" (context_keys dm) <-> In "Treatment" (names s)) /\
  (forall extract',
      exists dm',
        __init__ _polars_capitalize extract' parse_pega_date_time_formats
          default_predictor_categorization join_model_predictor
          (Some df) p q e calls = Ok (dm', calls') /\
        context_keys dm' = context_keys dm).
Proof.
  intros H Hs.
  destruct (init_context_keys _ _ _ _ _ _ _ H) as (s' & Hs' & Hkeys & Hin).
  rewrite Hs in Hs'. inversion Hs'; subst s'. split; [|split].
  - intros k Hk Hc. apply Hin in Hc. tauto.
  - rewrite Hin. simpl. tauto.
  - intro extract'. apply init_Ok in H.
    destruct H as (md & keys & pd & Hm & Hp & ->).
    apply validate_model_Some in Hm. destruct Hm as (s1 & t & Hs1 & Hl & Hr).
    rewrite Hs in Hs1. inversion Hs1; subst s1. inversion Hr; subst.
    eexists. split.
    + unfold __init__, _validate_model_data. rewrite Hs. simpl.
      unfold schema_getitem. rewrite Hl. simpl. rewrite Hp. simpl.
      reflexivity.
    + reflexivity.
Qed.

(** C5.  The query restricts the model dataset only.  A construction with
    a query succeeds exactly like the one without, with the same predictor
    dataset and context keys; its model dataset is the unqueried one with
    the query applied, which for an absent or empty query is the unqueried
    one itself, and which otherwise materialises to exactly the rows of the
    unqueried dataset that satisfy every predicate. *)
Theorem query_restricts_model_only m p q e calls dm calls' :
  init m p q e calls = Ok (dm, calls') ->
  exists dm0,
    init m p None e calls = Ok (dm0, calls') /\
    predictor_data dm = predictor_data dm0 /\
    context_keys dm = context_keys dm0 /\
    model_data dm =
      option_map (fun lf0 => _apply_query lf0 q) (model_data dm0) /\
    (forall lf0,
        _apply_query lf0 None = lf0 /\ _apply_query lf0 (Some []) = lf0) /\
    (forall lf0 ps df,
        collect (_apply_query lf0 (Some ps)) = Ok df ->
        exists df0,
          collect lf0 = Ok df0 /\ schema df = schema df0 /\
          rows df =
            List.filter (fun r => forallb (satisfies r) ps) (rows df0)) /\
    (forall lf0 ps df0,
        collect lf0 = Ok df0 ->
        (forall p, In p ps -> dtype (schema df0) p = Ok Boolean) ->
        (forall p r, In p ps -> In r (rows df0) ->
                     exists b, keeps p r = Ok b) ->
        exists df, collect (_apply_query lf0 (Some ps)) = Ok df).
Proof.
  intro H. apply init_Ok in H. destruct H as (md & keys & pd & Hm & Hp & ->).
  destruct m as [df|].
  - apply validate_model_Some in Hm. destruct Hm as (s & t & Hs & Hl & Hr).
    inversion Hr; subst. eexists. split.
    + unfold __init__, _validate_model_data. rewrite Hs. simpl.
      unfold schema_getitem. rewrite Hl. simpl. rewrite Hp. simpl.
      reflexivity.
    + simpl. repeat split; auto.
      * intros lf0 ps df0. apply collect_filters_Ok.
      * intros lf0 ps df0. apply collect_filters_total.
  - inversion Hm; subst. eexists. split.
    + unfold __init__. simpl. rewrite Hp. simpl. reflexivity.
    + simpl. repeat split; auto.
      * intros lf0 ps df0. apply collect_filters_Ok.
      * intros lf0 ps df0. apply collect_filters_total.
Qed.

(** C6 (as amended).  For a model input whose normalised schema resolves:
    without a [SnapshotTime] column the construction itself fails, with a
    key error; with one, the construction succeeds even when [Positives] or
    [ResponseCount] is missing from the frame the success rate is computed
    on, and the missing column surfaces only when the model dataset is
    resolved or materialised. *)
Theorem missing_column_error_locality df p q e calls s pd s1 :
  collect_schema (_polars_capitalize df) = Ok s ->
  validate_predictor p calls = Ok pd ->
  collect_schema
    (if e && contains "Name" (names s)
     then _extract_keys (_polars_capitalize df)
     else _polars_capitalize df) = Ok s1 ->
  match lookup "SnapshotTime" s with
  | None => init (Some df) p q e calls = Raise (KeyError "SnapshotTime")
  | Some _ =>
      exists dm lf,
        init (Some df) p q e calls = Ok (dm, snd pd) /\
        model_data dm = Some lf /\
        match lookup "Positives" s1, lookup "ResponseCount" s1 with
        | None, _ =>
            collect_schema lf = Raise (ColumnNotFoundError "Positives") /\
            exists e', collect lf = Raise e'
        | Some _, None =>
            collect_schema lf = Raise (ColumnNotFoundError "ResponseCount") /\
            exists e', collect lf = Raise e'
        | Some _, Some _ => True
        end
  end.
Proof.
  intros Hs Hp Hs1. unfold __init__, _validate_model_data.
  rewrite Hs. simpl. unfold schema_getitem.
  destruct (lookup "SnapshotTime" s) as [t|] eqn:Hl; simpl; [|reflexivity].
  rewrite Hp. simpl. do 2 eexists. split; [reflexivity|].
  split; [reflexivity|].
  set (df1 := if e && contains "Name" (names s)
              then _extract_keys (_polars_capitalize df)
              else _polars_capitalize df) in *.
  assert (Hsr : forall err,
             dtype s1 SuccessRate_expr = Raise err ->
             collect_schema
               (_apply_query
                  (if negb (DataType_eqb t Datetime)
                   then with_columns
                          (with_columns df1 [("SuccessRate", SuccessRate_expr)])
                          [("SnapshotTime", parse_pega_date_time_formats)]
                   else with_columns df1 [("SuccessRate", SuccessRate_expr)])
                  q) = Raise err).
  { intros err Herr. apply collect_schema_apply_query_Raise.
    assert (Hw : collect_schema
                   (with_columns df1 [("SuccessRate", SuccessRate_expr)])
                 = Raise err).
    { now apply collect_schema_with_column_Raise with (s := s1). }
    destruct (negb (DataType_eqb t Datetime)); [|exact Hw].
    now apply collect_schema_with_columns_below_Raise. }
  destruct (lookup "Positives" s1) as [tp|] eqn:Hpos.
  - destruct (lookup "ResponseCount" s1) as [tr|] eqn:Hrc; [exact I|].
    assert (Herr : dtype s1 SuccessRate_expr
                   = Raise (ColumnNotFoundError "ResponseCount")).
    { simpl. unfold get_column. rewrite Hpos, Hrc. reflexivity. }
    split; [exact (Hsr _ Herr)|].
    exact (collect_schema_Raise_collect _ _ (Hsr _ Herr)).
  - assert (Herr : dtype s1 SuccessRate_expr
                   = Raise (ColumnNotFoundError "Positives")).
    { simpl. unfold get_column. rewrite Hpos. reflexivity. }
    split; [exact (Hsr _ Herr)|].
    exact (collect_schema_Raise_collect _ _ (Hsr _ Herr)).
Qed.

Lemma init_model_rows df p q e calls dm calls' lf out row :
  init (Some df) p q e calls = Ok (dm, calls') ->
  model_data dm = Some lf -> collect lf = Ok out -> In row (rows out) ->
  exists pos rc x sr,
    lookup "Positives" row = Some pos /\
    lookup "ResponseCount" row = Some rc /\
    lookup "SuccessRate" row = Some sr /\
    truediv_value pos rc = Ok x /\ fill_nan_value x (VInt 0) = Ok sr.
Proof.
  intros H Hlf Hout Hin. apply init_Ok in H.
  destruct H as (md & keys & pd & Hm & _ & ->). simpl in Hlf. subst md.
  apply validate_model_Some in Hm. destruct Hm as (s & t & _ & _ & Hr).
  inversion Hr; subst. eapply model_plan_rows; eauto.
Qed.

(** C9.  In every row of the materialised model dataset whose [Positives]
    or [ResponseCount] is null, [SuccessRate] is null: [fill_nan] leaves a
    null as it is, as it leaves every float that is not NaN. *)
Theorem null_counts_give_null_success_rate
    df p q e calls dm calls' lf out row :
  init (Some df) p q e calls = Ok (dm, calls') ->
  model_data dm = Some lf -> collect lf = Ok out -> In row (rows out) ->
  lookup "Positives" row = Some VNull \/
  lookup "ResponseCount" row = Some VNull ->
  lookup "SuccessRate" row = Some VNull /\
  fill_nan_value VNull (VInt 0) = Ok VNull /\
  forall f, F64.is_nan f = false ->
            fill_nan_value (VFloat f) (VInt 0) = Ok (VFloat f).
Proof.
  intros H Hlf Hout Hin Hnull.
  destruct (init_model_rows _ _ _ _ _ _ _ _ _ _ H Hlf Hout Hin)
    as (pos & rc & x & sr & Hp & Hr & Hs & Hx & Hf).
  split; [|split].
  - assert (x = VNull).
    { apply (truediv_value_null pos rc); [|assumption].
      destruct Hnull as [Hn|Hn]; [left | right]; congruence. }
    subst x. simpl in Hf. congruence.
  - reflexivity.
  - intros f Hn. simpl. now rewrite Hn.
Qed.

Lemma validate_predictor_Some df calls pd calls' :
  validate_predictor (Some df) calls = Ok (pd, calls') ->
  exists s,
    collect_schema (_polars_capitalize df) = Ok s /\
    (pd, calls') =
      if contains "PredictorCategory" (names s)
      then (Some (predictor_metrics (_polars_capitalize df) s), calls)
      else
        let r := apply_predictor_categorization
                   (predictor_metrics (_polars_capitalize df) s)
                   default_predictor_categorization calls in
        (Some (fst r), snd r).
Proof.
  unfold _validate_predictor_data. intro H. inv_bind H as s Hs.
  exists s. split; [assumption|]. fold (predictor_metrics (_polars_capitalize df) s) in H.
  destruct (contains "PredictorCategory" (names s)); simpl in H.
  - now inversion H.
  - destruct (apply_predictor_categorization _ _ _) as [lf c].
    now inversion H.
Qed.

Lemma apply_predictor_categorization_eq lf cat c :
  apply_predictor_categorization lf cat c =
    (with_columns lf [("PredictorCategory", categorization_expr cat c)],
     c + invocations cat)%nat.
Proof.
  destruct cat; simpl; [rewrite Nat.add_0_r | rewrite Nat.add_1_r];
    reflexivity.
Qed.

(** C7.  Predictor validation categorises exactly when the normalised
    input schema has no [PredictorCategory] column, and then by one call
    of [apply_predictor_categorization] with the default rule; data that is
    categorised already keeps its column as it is.  The operation itself
    has no such check: it always writes the column, from the expression
    given or from the one a callable returns when invoked, once; every row
    of its result holds the value of that expression on the incoming row,
    so an existing category is overwritten, and applying it twice need not
    give what applying it once gives. *)
Theorem categorization_guarded_at_call_site df calls pd calls' s :
  validate_predictor (Some df) calls = Ok (pd, calls') ->
  collect_schema (_polars_capitalize df) = Ok s ->
  (if contains "PredictorCategory" (names s)
   then
     pd = Some (predictor_metrics (_polars_capitalize df) s) /\
     calls' = calls /\
     forall out, collect (predictor_metrics (_polars_capitalize df) s) = Ok out ->
       exists inp, collect (_polars_capitalize df) = Ok inp /\
         column "PredictorCategory" out = column "PredictorCategory" inp
   else
     pd = Some (fst (apply_predictor_categorization
                       (predictor_metrics (_polars_capitalize df) s)
                       default_predictor_categorization calls)) /\
     calls' = (calls + invocations default_predictor_categorization)%nat) /\
  (forall lf cat c,
      apply_predictor_categorization lf cat c =
        (with_columns lf [("PredictorCategory", categorization_expr cat c)],
         c + invocations cat)%nat) /\
  (forall lf cat c out row,
      collect (fst (apply_predictor_categorization lf cat c)) = Ok out ->
      In row (rows out) ->
      exists inp r0 v,
        collect lf = Ok inp /\ In r0 (rows inp) /\
        eval r0 (categorization_expr cat c) = Ok v /\
        row = upsert "PredictorCategory" v r0 /\
        lookup "PredictorCategory" row = Some v) /\
  (column "PredictorCategory"
     <$> collect (fst (apply_predictor_categorization Samples.categorized_df
                         Samples.by_predictor_name 0))
   <> column "PredictorCategory" <$> collect Samples.categorized_df) /\
  (let cat := CatExpr (add (col "PredictorCategory") (lit_str "+")) in
   let once := fst (apply_predictor_categorization
                      Samples.categorized_df cat 0) in
   collect (fst (apply_predictor_categorization once cat 0))
   <> collect once).
Proof.
  intros H Hs. apply validate_predictor_Some in H.
  destruct H as (s' & Hs' & Hr). rewrite Hs in Hs'. inversion Hs'; subst s'.
  split; [|split; [|split; [|split]]].
  - destruct (contains "PredictorCategory" (names s)) eqn:Hc.
    + inversion Hr; subst. split; [reflexivity|]. split; [reflexivity|].
      intros out Hout. unfold predictor_metrics in Hout.
      apply collect_with_columns_column with (k := "PredictorCategory")
        in Hout.
      2:{ simpl. intros [E|[E|[]]]; revert E; str_ne. }
      destruct Hout as (df1 & H1 & Hcol). rewrite Hcol.
      destruct (negb (contains "BinResponseCount" (names s))).
      * apply collect_with_columns_column with (k := "PredictorCategory")
          in H1.
        2:{ simpl. intros [E|[]]; revert E; str_ne. }
        destruct H1 as (df0 & H0 & Hcol0). exists df0. split; congruence.
      * exists df1. auto.
    + rewrite apply_predictor_categorization_eq in Hr. simpl in Hr.
      inversion Hr; subst. rewrite apply_predictor_categorization_eq.
      auto.
  - intros. apply apply_predictor_categorization_eq.
  - intros lf cat c out row Hout Hin.
    rewrite apply_predictor_categorization_eq in Hout. simpl in Hout.
    destruct (collect_with_column_rows _ _ _ _ _ Hout Hin)
      as (inp & r0 & v & Hi & Hr0 & Hv & ->).
    exists inp, r0, v. rewrite lookup_upsert_eq. auto.
  - vm_compute. discriminate.
  - vm_compute. discriminate.
Qed.

(** C1 (as amended).  In every row of the materialised model dataset whose
    two counts are numbers, [SuccessRate] is the binary64 quotient
    [Positives / ResponseCount], or zero where that quotient is NaN, and so
    never NaN; for counts that are whole numbers of any size (in an integer
    or a float column) with [0 <= Positives <= ResponseCount] it lies in
    [0, 1].  It does not always lie there: a positive count over zero
    responses gives plus infinity, and a null count gives null. *)
Theorem success_rate_of_model_rows df p q e calls dm calls' lf out row :
  init (Some df) p q e calls = Ok (dm, calls') ->
  model_data dm = Some lf -> collect lf = Ok out -> In row (rows out) ->
  exists pos rc sr,
    lookup "Positives" row = Some pos /\
    lookup "ResponseCount" row = Some rc /\
    lookup "SuccessRate" row = Some sr /\
    (forall a b,
        to_float pos = Some a -> to_float rc = Some b ->
        sr = VFloat (SuccessRate_spec a b) /\
        F64.is_nan (SuccessRate_spec a b) = false /\
        (F64.is_nan (F64.div a b) = true -> sr = VFloat F64.zero) /\
        (F64.is_nan (F64.div a b) = false -> sr = VFloat (F64.div a b))) /\
    (forall n d,
        holds_count pos n -> holds_count rc d ->
        0 <= n <= d ->
        exists f,
          sr = VFloat f /\
          F64.leb F64.zero f = true /\ F64.leb f F64.one = true) /\
    (forall n,
        holds_count pos n -> holds_count rc 0 -> 0 < n ->
        sr = VFloat F64.inf) /\
    (pos = VNull \/ rc = VNull -> sr = VNull).
Proof.
  intros H Hlf Hout Hin.
  destruct (init_model_rows _ _ _ _ _ _ _ _ _ _ H Hlf Hout Hin)
    as (pos & rc & x & sr & Hp & Hr & Hs & Hx & Hf).
  exists pos, rc, sr. do 3 (split; [assumption|]).
  assert (Hnum : forall a b,
             to_float pos = Some a -> to_float rc = Some b ->
             sr = VFloat (SuccessRate_spec a b)).
  { intros a b Ha Hb. rewrite (truediv_value_numeric _ _ _ _ Ha Hb) in Hx.
    inversion Hx; subst x. rewrite fill_nan_value_float in Hf.
    inversion Hf. reflexivity. }
  split; [|split; [|split]].
  - intros a b Ha Hb. split; [now apply Hnum|].
    split; [apply SuccessRate_spec_not_nan|].
    rewrite (Hnum a b Ha Hb). unfold SuccessRate_spec. cbv zeta.
    split; intros ->; reflexivity.
  - intros n d Ha Hb Hn. apply holds_count_to_float in Ha, Hb.
    eexists. split; [exact (Hnum _ _ Ha Hb)|].
    now apply SuccessRate_spec_whole_numbers.
  - intros n Ha Hb Hn. apply holds_count_to_float in Ha, Hb.
    rewrite (Hnum _ _ Ha Hb). f_equal.
    now apply SuccessRate_spec_over_zero.
  - intro Hnull.
    assert (x = VNull) by (apply (truediv_value_null pos rc); assumption).
    subst x. simpl in Hf. congruence.
Qed.


End DatamartProperties.

(** ** Saving *)

Lemma is_digit_digit (n : N) : is_digit (datetime.digit n) = true.
Proof.
  unfold datetime.digit.
  destruct (n mod 10)%N as [|p]; [reflexivity|].
  do 4 (destruct p as [p|p|]; try reflexivity).
Qed.

Arguments datetime.digit : simpl never.

(** The timestamp of [save_data]: date, [T], time of day, a dot and the
    milliseconds. *)
Lemma timestamp_shape (d : datetime.t) :
  drop_last3 (datetime.strftime d) =
    datetime.field 4 (datetime.year d) ++ datetime.field 2 (datetime.month d) ++
    datetime.field 2 (datetime.day d) ++ "T" ++
    datetime.field 2 (datetime.hour d) ++ datetime.field 2 (datetime.minute d) ++
    datetime.field 2 (datetime.second d) ++ "." ++
    datetime.field 3 (datetime.microsecond d / 1000)%N.
Proof.
  unfold drop_last3, datetime.strftime. cbn. rewrite !N.Div0.div_div.
  reflexivity.
Qed.

Lemma timestamp_format (d : datetime.t) :
  matches "99999999T999999.999" (drop_last3 (datetime.strftime d)) = true.
Proof.
  rewrite timestamp_shape. cbn. rewrite !is_digit_digit. reflexivity.
Qed.

Section SaveProperties.

Variable cache_to_file : LazyFrame -> string -> string -> result Path.
Variable now : nat -> datetime.t.

(** C8.  Every save reads the clock once; the one timestamp it formats (for
    a clock value in the ranges [datetime] guarantees, where every field has
    its fixed width) has the shape YYYYMMDDThhmmss.mmm, ending in the
    milliseconds, and names both artifacts.  When the save returns, a dataset that is present has
    been passed to [cache_to_file] under its name and the location that call
    gave is returned; for an absent dataset the location is absent and no
    call has been made.  When it raises, it is a [cache_to_file] call that
    raised, and the calls made up to it are all there is. *)
Theorem save_data_names_and_locations self path w r w' :
  datetime.valid (now (clock_reads w)) ->
  save_data cache_to_file now self path w = (r, w') ->
  let d := now (clock_reads w) in
  let time := drop_last3 (datetime.strftime d) in
  let model_call :=
    match model_data self with
    | Some df => [(df, path, "cached_model_data_" ++ time)]
    | None => []
    end in
  let predictor_call :=
    match predictor_data self with
    | Some df => [(df, path, "cached_predictor_data_" ++ time)]
    | None => []
    end in
  matches "99999999T999999.999" time = true /\
  time =
    datetime.field 4 (datetime.year d) ++ datetime.field 2 (datetime.month d) ++
    datetime.field 2 (datetime.day d) ++ "T" ++
    datetime.field 2 (datetime.hour d) ++ datetime.field 2 (datetime.minute d) ++
    datetime.field 2 (datetime.second d) ++ "." ++
    datetime.field 3 (datetime.microsecond d / 1000)%N /\
  clock_reads w' = S (clock_reads w) /\
  match r with
  | Ok res =>
      match model_data self with
      | Some df =>
          exists loc,
            cache_to_file df path ("cached_model_data_" ++ time) = Ok loc /\
            fst res = Some loc
      | None => fst res = None
      end /\
      match predictor_data self with
      | Some df =>
          exists loc,
            cache_to_file df path ("cached_predictor_data_" ++ time) = Ok loc /\
            snd res = Some loc
      | None => snd res = None
      end /\
      cache_calls w' =
        List.app predictor_call (List.app model_call (cache_calls w))
  | Raise e =>
      (exists df,
          model_data self = Some df /\
          cache_to_file df path ("cached_model_data_" ++ time) = Raise e /\
          cache_calls w' = List.app model_call (cache_calls w)) \/
      (exists df,
          predictor_data self = Some df /\
          cache_to_file df path ("cached_predictor_data_" ++ time) = Raise e /\
          cache_calls w' =
            List.app predictor_call (List.app model_call (cache_calls w)))
  end.
Proof.
  intros _ H d time model_call predictor_call.
  split; [apply timestamp_format|]. split; [apply timestamp_shape|].
  unfold save_data in H. fold d in H. fold time in H.
  subst model_call predictor_call.
  destruct (model_data self) as [mdf|], (predictor_data self) as [pdf|];
    simpl in H;
    repeat match type of H with
      | context [cache_to_file ?a ?b ?c] =>
          let E := fresh "E" in
          destruct (cache_to_file a b c) eqn:E; simpl in H
      end;
    inversion H; subst; simpl; (split; [reflexivity|]);
    first [ now (repeat split; eauto)
          | left; eexists; now eauto
          | right; eexists; now eauto ].
Qed.

End SaveProperties.

(** * Further properties of the datamart *)

(** ** What a [with_columns] keeps *)

Lemma map_result_length {A B} (f : A -> result B) (l : list A) (l' : list B) :
  map_result f l = Ok l' -> List.length l' = List.length l.
Proof.
  revert l'. induction l as [|a l IH]; simpl; intros l' H.
  - now inversion H.
  - inv_bind H as b Hb. inv_bind H as bs Hbs. inversion H; subst. simpl.
    now rewrite (IH _ Hbs).
Qed.

Lemma collect_with_columns_keeps lf named df :
  collect (with_columns lf named) = Ok df ->
  exists df0,
    collect lf = Ok df0 /\
    List.length (rows df) = List.length (rows df0) /\
    forall k, ~ In k (names named) -> column k df = column k df0.
Proof.
  intro H. pose proof H as H'. apply collect_with_columns_Ok in H'.
  destruct H' as (df0 & H0 & _ & Hrows). exists df0. split; [assumption|].
  split; [now apply map_result_length in Hrows|].
  intros k Hk.
  destruct (collect_with_columns_column lf named df k H Hk) as (d & Hd & Hc).
  congruence.
Qed.

Lemma names_upsert {V} (k : string) (v : V) (l : list (string * V)) :
  names (upsert k v l) =
    if contains k (names l) then names l else (names l ++ [k])%list.
Proof.
  induction l as [|[k' v'] l IH]; simpl; [reflexivity|].
  unfold contains in *. simpl.
  destruct (String.eqb k k') eqn:E; simpl.
  - apply String.eqb_eq in E. now subst.
  - unfold names in *. simpl. rewrite IH.
    destruct (existsb (String.eqb k) (map fst l)); reflexivity.
Qed.


(** ** Bin propensity *)

Lemma eval_BinPropensity_expr r v :
  eval r BinPropensity_expr = Ok v ->
  exists pos brc,
    lookup "BinPositives" r = Some pos /\
    lookup "BinResponseCount" r = Some brc /\ truediv_value pos brc = Ok v.
Proof.
  unfold BinPropensity_expr. simpl. unfold get_column. intro H.
  destruct (lookup "BinPositives" r) as [pos|]; [|discriminate].
  destruct (lookup "BinResponseCount" r) as [brc|]; [|discriminate].
  simpl in H. eauto.
Qed.

Lemma predictor_metrics_propensity lf s out row :
  collect (predictor_metrics lf s) = Ok out -> In row (rows out) ->
  exists pos brc prop,
    lookup "BinPositives" row = Some pos /\
    lookup "BinResponseCount" row = Some brc /\
    lookup "BinPropensity" row = Some prop /\
    truediv_value pos brc = Ok prop.
Proof.
  unfold predictor_metrics. intros H Hin.
  apply collect_with_columns_Ok in H. destruct H as (df1 & H1 & _ & Hrows).
  destruct (map_result_Ok_In _ _ _ Hrows _ Hin) as (r1 & Hr1 & Hrow).
  apply with_columns_row2_Ok in Hrow.
  destruct Hrow as (prop & adj & Hprop & _ & ->).
  destruct (eval_BinPropensity_expr _ _ Hprop) as (pos & brc & Hp & Hb & Hd).
  exists pos, brc, prop.
  rewrite (lookup_upsert_ne "BinPropensity" "BinAdjustedPropensity") by str_ne.
  rewrite lookup_upsert_eq, !lookup_upsert_ne by str_ne. auto.
Qed.

Lemma div_by_zero_count (p : Z) :
  0 < p < 2 ^ 53 -> F64.div (F64.of_int p) (F64.of_int 0) = F64.inf.
Proof.
  intro Hp. destruct (of_int_normal p Hp) as (m & e & -> & _). reflexivity.
Qed.

Section FurtherDatamartProperties.

Variable _polars_capitalize : LazyFrame -> LazyFrame.
Variable _extract_keys : LazyFrame -> LazyFrame.
Variable parse_pega_date_time_formats : Expr.
Variable default_predictor_categorization : Categorization.
Variable join_model_predictor : LazyFrame -> LazyFrame -> LazyFrame.
Variable read_ds_export : string -> string -> option LazyFrame.

Local Abbreviation validate_model :=
  (_validate_model_data _polars_capitalize _extract_keys
     parse_pega_date_time_formats).
Local Abbreviation validate_predictor :=
  (_validate_predictor_data _polars_capitalize
     default_predictor_categorization).
Local Abbreviation init :=
  (__init__ _polars_capitalize _extract_keys parse_pega_date_time_formats
     default_predictor_categorization join_model_predictor).

(** The frame a predictor validation returns, for a normalised input whose
    schema is [s]. *)
Lemma validate_predictor_plan df calls lf calls' s :
  validate_predictor (Some df) calls = Ok (Some lf, calls') ->
  collect_schema (_polars_capitalize df) = Ok s ->
  lf =
    (if contains "PredictorCategory" (names s)
     then predictor_metrics (_polars_capitalize df) s
     else with_columns (predictor_metrics (_polars_capitalize df) s)
            [("PredictorCategory",
              categorization_expr default_predictor_categorization calls)]) /\
  calls' =
    (calls + if contains "PredictorCategory" (names s)
             then 0 else invocations default_predictor_categorization)%nat.
Proof.
  intros H Hs. apply (validate_predictor_Some _polars_capitalize) in H.
  destruct H as (s' & Hs' & Hr). rewrite Hs in Hs'. inversion Hs'; subst s'.
  destruct (contains "PredictorCategory" (names s)).
  - inversion Hr. rewrite Nat.add_0_r. auto.
  - rewrite apply_predictor_categorization_eq in Hr. simpl in Hr.
    inversion Hr. auto.
Qed.

(** X1.  In every row of the materialised predictor dataset [BinPropensity]
    is the plain quotient [BinPositives / BinResponseCount], null when a
    count is null and with no NaN guard: for numbers it is their binary64
    quotient, which is NaN for 0/0 and plus infinity for a positive count
    over zero, and lies in [0, 1] for whole numbers with
    [0 <= BinPositives <= BinResponseCount], [0 < BinResponseCount < 2^53]. *)
Theorem bin_propensity_of_predictor_rows df calls lf calls' out row :
  validate_predictor (Some df) calls = Ok (Some lf, calls') ->
  collect lf = Ok out -> In row (rows out) ->
  exists pos brc prop,
    lookup "BinPositives" row = Some pos /\
    lookup "BinResponseCount" row = Some brc /\
    lookup "BinPropensity" row = Some prop /\
    truediv_value pos brc = Ok prop /\
    (pos = VNull \/ brc = VNull -> prop = VNull) /\
    (forall a b,
        to_float pos = Some a -> to_float brc = Some b ->
        prop = VFloat (F64.div a b)) /\
    (holds_count pos 0 -> holds_count brc 0 -> prop = VFloat S754_nan) /\
    (forall p,
        holds_count pos p -> holds_count brc 0 -> 0 < p < 2 ^ 53 ->
        prop = VFloat F64.inf) /\
    (forall p r,
        holds_count pos p -> holds_count brc r ->
        0 <= p <= r -> 0 < r < 2 ^ 53 ->
        exists f,
          prop = VFloat f /\
          F64.leb F64.zero f = true /\ F64.leb f F64.one = true).
Proof.
  intros H Hout Hin.
  assert (Hrow : exists pos brc prop,
             lookup "BinPositives" row = Some pos /\
             lookup "BinResponseCount" row = Some brc /\
             lookup "BinPropensity" row = Some prop /\
             truediv_value pos brc = Ok prop).
  { pose proof H as H'. apply (validate_predictor_Some _polars_capitalize) in H'.
    destruct H' as (s & Hs & _).
    destruct (validate_predictor_plan _ _ _ _ _ H Hs) as (-> & _).
    destruct (contains "PredictorCategory" (names s)).
    - eapply predictor_metrics_propensity; eauto.
    - destruct (collect_with_column_rows _ _ _ _ _ Hout Hin)
        as (d2 & r2 & v & H2 & Hin2 & _ & ->).
      destruct (predictor_metrics_propensity _ _ _ _ H2 Hin2)
        as (pos & brc & prop & Hp & Hb & Hpr & Hd).
      exists pos, brc, prop. rewrite !lookup_upsert_ne by str_ne. auto. }
  destruct Hrow as (pos & brc & prop & Hp & Hb & Hpr & Hd).
  exists pos, brc, prop. do 4 (split; [assumption|]).
  assert (Hnum : forall a b,
             to_float pos = Some a -> to_float brc = Some b ->
             prop = VFloat (F64.div a b)).
  { intros a b Ha Hb'. rewrite (truediv_value_numeric _ _ _ _ Ha Hb') in Hd.
    now inversion Hd. }
  split; [|split; [|split; [|split]]].
  - intro Hnull. apply (truediv_value_null pos brc); assumption.
  - exact Hnum.
  - intros H0 H0'. apply holds_count_to_float in H0, H0'.
    now rewrite (Hnum _ _ H0 H0').
  - intros p Hpos Hz Hpr'. apply holds_count_to_float in Hpos, Hz.
    rewrite (Hnum _ _ Hpos Hz). now rewrite div_by_zero_count.
  - intros p r Hpos Hbrc Hpr' Hr. apply holds_count_to_float in Hpos, Hbrc.
    rewrite (Hnum _ _ Hpos Hbrc). eexists. split; [reflexivity|].
    destruct (div_counts_in_unit_interval p r Hpr' Hr) as (_ & H0 & H1). auto.
Qed.

(** X2.  Predictor validation adds no row and drops none, and every column
    of the normalised input other than [BinPropensity] and
    [BinAdjustedPropensity] comes out as it went in, row for row: a
    [BinResponseCount] or a [PredictorCategory] that the input brings is
    never recomputed. *)
Theorem predictor_validation_keeps_input df calls lf calls' s out :
  validate_predictor (Some df) calls = Ok (Some lf, calls') ->
  collect_schema (_polars_capitalize df) = Ok s ->
  collect lf = Ok out ->
  exists inp,
    collect (_polars_capitalize df) = Ok inp /\
    List.length (rows out) = List.length (rows inp) /\
    forall k,
      In k (names s) ->
      k <> "BinPropensity" -> k <> "BinAdjustedPropensity" ->
      column k out = column k inp.
Proof.
  intros H Hs Hout.
  destruct (validate_predictor_plan _ _ _ _ _ H Hs) as (-> & _).
  assert (Hmetrics : forall d,
             collect (predictor_metrics (_polars_capitalize df) s) = Ok d ->
             exists inp,
               collect (_polars_capitalize df) = Ok inp /\
               List.length (rows d) = List.length (rows inp) /\
               forall k,
                 In k (names s) ->
                 k <> "BinPropensity" -> k <> "BinAdjustedPropensity" ->
                 column k d = column k inp).
  { intros d Hd. unfold predictor_metrics in Hd.
    apply collect_with_columns_keeps in Hd.
    destruct Hd as (d1 & H1 & Hlen1 & Hcol1).
    assert (Hk2 : forall k,
               k <> "BinPropensity" -> k <> "BinAdjustedPropensity" ->
               column k d = column k d1).
    { intros k Hk1 Hk2. apply Hcol1. simpl. intros [E|[E|[]]]; congruence. }
    destruct (contains "BinResponseCount" (names s)) eqn:Hc; simpl in H1.
    - exists d1. split; [assumption|]. split; [assumption|]. auto.
    - apply collect_with_columns_keeps in H1.
      destruct H1 as (d0 & H0 & Hlen0 & Hcol0). exists d0.
      split; [assumption|]. split; [congruence|].
      intros k Hin Hk1 Hk2'. rewrite Hk2 by assumption. apply Hcol0.
      simpl. intros [E|[]]. subst k.
      apply contains_In in Hin. congruence. }
  destruct (contains "PredictorCategory" (names s)) eqn:Hpc.
  - auto.
  - apply collect_with_columns_keeps in Hout.
    destruct Hout as (d & Hd & Hlen & Hcol).
    destruct (Hmetrics d Hd) as (inp & Hinp & Hlen' & Hcol').
    exists inp. split; [assumption|]. split; [congruence|].
    intros k Hin Hk1 Hk2. rewrite <- Hcol' by assumption. apply Hcol.
    simpl. intros [E|[]]. subst k. apply contains_In in Hin. congruence.
Qed.



(** X4.  Without a query, model validation adds no row and drops none, and
    every column of the frame it derives the success rate on comes out as it
    went in, except [SuccessRate] and [SnapshotTime]; a [SnapshotTime] that
    the schema types as a datetime comes out unchanged too. *)
Theorem model_validation_keeps_input keys df e lf keys' s out :
  validate_model keys (Some df) None e = Ok (Some lf, keys') ->
  collect_schema (_polars_capitalize df) = Ok s ->
  collect lf = Ok out ->
  exists inp,
    collect (if e && contains "Name" (names s)
             then _extract_keys (_polars_capitalize df)
             else _polars_capitalize df) = Ok inp /\
    List.length (rows out) = List.length (rows inp) /\
    (forall k,
        k <> "SuccessRate" -> k <> "SnapshotTime" ->
        column k out = column k inp) /\
    (lookup "SnapshotTime" s = Some Datetime ->
     column "SnapshotTime" out = column "SnapshotTime" inp).
Proof.
  intros H Hs Hout.
  apply (validate_model_Some _polars_capitalize) in H.
  destruct H as (s' & t & Hs' & Hl & Hr). rewrite Hs in Hs'.
  inversion Hs'; subst s'. inversion Hr; subst lf. clear Hr.
  unfold _apply_query, model_plan in Hout. cbv zeta in Hout.
  set (pre := if e && contains "Name" (names s)
              then _extract_keys (_polars_capitalize df)
              else _polars_capitalize df) in *.
  assert (Hsr : forall d,
             collect (with_columns pre [("SuccessRate", SuccessRate_expr)])
             = Ok d ->
             exists inp,
               collect pre = Ok inp /\
               List.length (rows d) = List.length (rows inp) /\
               forall k, k <> "SuccessRate" -> column k d = column k inp).
  { intros d Hd. apply collect_with_columns_keeps in Hd.
    destruct Hd as (inp & Hinp & Hlen & Hcol). exists inp.
    split; [assumption|]. split; [assumption|].
    intros k Hk. apply Hcol. simpl. intros [E|[]]; congruence. }
  destruct (DataType_eqb t Datetime) eqn:Ht; cbn [negb] in Hout.
  - destruct (Hsr out Hout) as (inp & Hinp & Hlen & Hcol). exists inp.
    split; [assumption|]. split; [assumption|]. split.
    + intros k Hk _. now apply Hcol.
    + intros _. apply Hcol. str_ne.
  - apply collect_with_columns_keeps in Hout.
    destruct Hout as (d & Hd & Hlen & Hcol).
    destruct (Hsr d Hd) as (inp & Hinp & Hlen' & Hcol'). exists inp.
    split; [assumption|]. split; [congruence|]. split.
    + intros k Hk1 Hk2. rewrite <- Hcol' by assumption. apply Hcol.
      simpl. intros [E|[]]; congruence.
    + intro Hdt. rewrite Hl in Hdt. inversion Hdt; subst t. discriminate.
Qed.

(** X5.  [_extract_keys] runs only when key extraction is requested and the
    normalised schema has a [Name] column: with the flag off, or without
    that column, the construction does not depend on what the extraction
    would do. *)
Theorem key_extraction_only_on_request df p q e calls :
  e = false \/
  (exists s, collect_schema (_polars_capitalize df) = Ok s /\
             ~ In "Name" (names s)) ->
  forall extract',
    __init__ _polars_capitalize extract' parse_pega_date_time_formats
      default_predictor_categorization join_model_predictor
      (Some df) p q e calls
    = init (Some df) p q e calls.
Proof.
  intros Hcond extract'. unfold __init__, _validate_model_data.
  destruct (collect_schema (_polars_capitalize df)) as [s|err] eqn:Hs;
    [|reflexivity].
  simpl.
  assert (Hoff : e && contains "Name" (names s) = false).
  { destruct Hcond as [-> | (s' & Hs' & Hn)]; [reflexivity|].
    inversion Hs'; subst s'.
    destruct (contains "Name" (names s)) eqn:E; [|apply andb_false_r].
    apply contains_In in E. contradiction. }
  rewrite Hoff. reflexivity.
Qed.

(** X6.  After a successful construction the context keys are pairwise
    distinct, at most six, and [Treatment], when it is a key, is the last
    one. *)
Theorem context_keys_distinct m p q e calls dm calls' :
  __init__ _polars_capitalize _extract_keys parse_pega_date_time_formats
    default_predictor_categorization join_model_predictor m p q e calls
  = Ok (dm, calls') ->
  NoDup (context_keys dm) /\
  (List.length (context_keys dm) <= 6)%nat /\
  (In "Treatment" (context_keys dm) ->
   exists front,
     context_keys dm = (front ++ ["Treatment"])%list /\
     ~ In "Treatment" front).
Proof.
  intro H.
  assert (Hnd : NoDup six_candidates).
  { unfold six_candidates.
    repeat (constructor; [simpl; intuition discriminate|]). constructor. }
  destruct m as [df|].
  - destruct (init_context_keys _ _ _ _ _ _ _ _ _ _ _ _ H) as (s & _ & Hk & _).
    rewrite Hk. split; [now apply NoDup_filter|].
    split; [apply (filter_length_le _ six_candidates)|].
    intro Hin. apply filter_In in Hin. destruct Hin as [_ Hc].
    exists (List.filter (fun k => contains k (names s)) candidate_keys).
    change six_candidates with (candidate_keys ++ ["Treatment"])%list.
    rewrite filter_app.
    assert (Hlast : List.filter (fun k => contains k (names s)) ["Treatment"]
                    = ["Treatment"]) by (cbn [List.filter]; now rewrite Hc).
    rewrite Hlast. split; [reflexivity|].
    intro Hin. apply filter_In in Hin. destruct Hin as [Hin _].
    simpl in Hin. intuition discriminate.
  - apply (init_Ok _polars_capitalize) in H.
    destruct H as (md & keys & pd & Hm & _ & ->). simpl in Hm.
    inversion Hm; subst. simpl. split.
    + unfold candidate_keys.
      repeat (constructor; [simpl; intuition discriminate|]). constructor.
    + split; [lia|]. intuition discriminate.
Qed.

(** X7.  [from_ds_export] reads [model_data] and [predictor_data] when a
    file name is not given or is the empty string, and builds the datamart
    from whatever the reads give; when neither file is found the result is
    a datamart with all three datasets absent and the five candidate keys,
    not an error. *)
Theorem from_ds_export_defaults_and_absence base_path q e calls :
  let from_ds_export :=
    from_ds_export _polars_capitalize _extract_keys
      parse_pega_date_time_formats default_predictor_categorization
      join_model_predictor read_ds_export in
  from_ds_export None None base_path q e calls
  = from_ds_export (Some "model_data") (Some "predictor_data")
      base_path q e calls /\
  from_ds_export (Some "") (Some "") base_path q e calls
  = from_ds_export None None base_path q e calls /\
  (forall mf pf,
      from_ds_export mf pf base_path q e calls
      = init (read_ds_export (or_default mf "model_data") base_path)
             (read_ds_export (or_default pf "predictor_data") base_path)
             q e calls) /\
  (forall mf pf,
      read_ds_export (or_default mf "model_data") base_path = None ->
      read_ds_export (or_default pf "predictor_data") base_path = None ->
      from_ds_export mf pf base_path q e calls
      = Ok ({| context_keys :=
                 ["Channel"; "Direction"; "Issue"; "Group"; "Name"];
               model_data := None; predictor_data := None;
               combined_data := None |}, calls)).
Proof.
  cbv zeta. repeat split; try reflexivity.
  intros mf pf Hm Hp. unfold from_ds_export. rewrite Hm, Hp. reflexivity.
Qed.

(** X8.  [apply_predictor_categorization] adds no row and drops none, leaves
    every column other than [PredictorCategory] as it is, and changes the
    column names only by appending [PredictorCategory] when the frame has
    no such column. *)
Theorem apply_predictor_categorization_keeps_frame lf cat c out :
  collect (fst (apply_predictor_categorization lf cat c)) = Ok out ->
  exists inp,
    collect lf = Ok inp /\
    List.length (rows out) = List.length (rows inp) /\
    (forall k, k <> "PredictorCategory" -> column k out = column k inp) /\
    names (schema out) =
      (if contains "PredictorCategory" (names (schema inp))
       then names (schema inp)
       else names (schema inp) ++ ["PredictorCategory"])%list.
Proof.
  rewrite apply_predictor_categorization_eq. simpl. intro H.
  pose proof H as H'. apply collect_with_columns_keeps in H'.
  destruct H' as (inp & Hinp & Hlen & Hcol). exists inp.
  split; [assumption|]. split; [assumption|]. split.
  - intros k Hk. apply Hcol. simpl. intros [E|[]]; congruence.
  - apply collect_with_columns_Ok in H.
    destruct H as (inp' & Hinp' & Hsch & _). rewrite Hinp in Hinp'.
    inversion Hinp'; subst inp'.
    unfold with_columns_schema, named_dtypes in Hsch. simpl in Hsch.
    inv_bind Hsch as ts Hts. inv_bind Hts as nt Hnt. inv_bind Hnt as t Ht.
    inversion Hnt; subst nt. inversion Hts; subst ts. inversion Hsch.
    unfold upserts. simpl. apply names_upsert.
Qed.

(** X9.  The order in which a construction fails.  A construction that
    succeeds has resolved the schema of each input it was given, and found
    a [SnapshotTime] column in the model schema.  An error of the model
    side (the error of resolving its schema, or the [KeyError] for a
    missing [SnapshotTime]) is raised whatever the predictor data is; the
    error of resolving the predictor schema is raised once the model
    validation has returned. *)
Theorem construction_failure_order m p q e calls :
  ((exists dm calls', init m p q e calls = Ok (dm, calls')) ->
   match m with
   | None => True
   | Some df =>
       exists s t,
         collect_schema (_polars_capitalize df) = Ok s /\
         lookup "SnapshotTime" s = Some t
   end /\
   match p with
   | None => True
   | Some df => exists s, collect_schema (_polars_capitalize df) = Ok s
   end) /\
  (forall df err,
      m = Some df -> collect_schema (_polars_capitalize df) = Raise err ->
      init m p q e calls = Raise err) /\
  (forall df s,
      m = Some df -> collect_schema (_polars_capitalize df) = Ok s ->
      lookup "SnapshotTime" s = None ->
      init m p q e calls = Raise (KeyError "SnapshotTime")) /\
  (forall r df err,
      validate_model candidate_keys m q e = Ok r ->
      p = Some df -> collect_schema (_polars_capitalize df) = Raise err ->
      init m p q e calls = Raise err).
Proof.
  split; [|split; [|split]].
  - intros (dm & calls' & H). apply (init_Ok _polars_capitalize) in H.
    destruct H as (md & keys & pd & Hm & Hp & _). split.
    + destruct m as [df|]; [|exact I].
      apply (validate_model_Some _polars_capitalize) in Hm.
      destruct Hm as (s & t & Hs & Hl & _). eauto.
    + destruct p as [df|]; [|exact I].
      unfold _validate_predictor_data in Hp. inv_bind Hp as s Hs. eauto.
  - intros df err -> Hs. unfold __init__, _validate_model_data.
    rewrite Hs. reflexivity.
  - intros df s -> Hs Hl. unfold __init__, _validate_model_data.
    rewrite Hs. cbn [bind]. unfold schema_getitem. rewrite Hl. reflexivity.
  - intros r df err Hm -> Hs. unfold __init__. rewrite Hm. cbn [bind].
    unfold _validate_predictor_data. rewrite Hs. reflexivity.
Qed.

End FurtherDatamartProperties.

(** ** Timestamps of distinct moments *)



Local Open Scope N_scope.






Local Close Scope N_scope.




Section SaveNameProperties.

Variable cache_to_file : LazyFrame -> string -> string -> result Path.
Variable now : nat -> datetime.t.



End SaveNameProperties.

(** * Report helpers *)

Lemma filter_id_iff {A} (f : A -> bool) (l : list A) :
  List.filter f l = l <-> forall a, In a l -> f a = true.
Proof.
  split.
  - intros H a Ha. rewrite <- H in Ha. apply filter_In in Ha. tauto.
  - induction l as [|a l IH]; simpl; intro H; [reflexivity|].
    rewrite (H a) by auto. f_equal. apply IH. auto.
Qed.

Lemma filter_nil_iff {A} (f : A -> bool) (l : list A) :
  List.filter f l = [] <-> forall a, In a l -> f a = false.
Proof.
  induction l as [|a l IH]; simpl.
  - tauto.
  - destruct (f a) eqn:E.
    + split; [discriminate|]. intro H. rewrite (H a) in E by auto.
      discriminate.
    + rewrite IH. split.
      * intros H b [<-|Hb]; auto.
      * auto.
Qed.

Lemma filter_idempotent {A} (f : A -> bool) (l : list A) :
  List.filter f (List.filter f l) = List.filter f l.
Proof.
  apply filter_id_iff. intros a Ha. apply filter_In in Ha. tauto.
Qed.

Lemma contains_false_iff k l : contains k l = false <-> ~ In k l.
Proof.
  rewrite <- contains_In. destruct (contains k l); split; congruence.
Qed.

(** X11.  [polars_subset_to_existing_cols] keeps exactly the requested
    columns that exist, in the order and with the multiplicity they were
    requested: it distributes over concatenation, applying it twice changes
    nothing, it returns its argument exactly when every requested column
    exists and the empty list exactly when none does, and it depends on the
    existing columns only through membership. *)
Theorem polars_subset_to_existing_cols_spec (all_columns cols : list string) :
  let subset := report_utils.polars_subset_to_existing_cols in
  (forall c, In c (subset all_columns cols) <->
             In c cols /\ In c all_columns) /\
  (forall more,
     subset all_columns (cols ++ more)%list =
     (subset all_columns cols ++ subset all_columns more)%list) /\
  (forall c, count_occ string_dec (subset all_columns cols) c =
             if contains c all_columns
             then count_occ string_dec cols c else 0%nat) /\
  subset all_columns (subset all_columns cols) = subset all_columns cols /\
  (subset all_columns cols = cols <->
   forall c, In c cols -> In c all_columns) /\
  (subset all_columns cols = [] <->
   forall c, In c cols -> ~ In c all_columns) /\
  (forall others,
     (forall c, In c all_columns <-> In c others) ->
     subset others cols = subset all_columns cols).
Proof.
  unfold report_utils.polars_subset_to_existing_cols. cbv zeta.
  split; [|split; [|split; [|split; [|split; [|split]]]]].
  - intro c. rewrite filter_In, contains_In. reflexivity.
  - intro more. apply filter_app.
  - intro c. induction cols as [|a cols IH]; simpl.
    + now destruct (contains c all_columns).
    + destruct (contains a all_columns) eqn:Ea; simpl;
        destruct (string_dec a c) as [->|Hne]; rewrite IH.
      * now rewrite Ea.
      * reflexivity.
      * now rewrite Ea.
      * reflexivity.
  - apply filter_idempotent.
  - rewrite filter_id_iff. split; intros H c Hc.
    + apply contains_In. auto.
    + apply contains_In. auto.
  - rewrite filter_nil_iff. split; intros H c Hc.
    + apply contains_false_iff. auto.
    + apply contains_false_iff. auto.
  - intros others H. apply filter_ext. intro c.
    destruct (contains c all_columns) eqn:E.
    + apply contains_In. apply H. now apply contains_In.
    + apply contains_false_iff. rewrite <- H. now apply contains_false_iff.
Qed.
(** ** The context keys as report columns *)

Lemma collect_schema_filters_Ok (ps : list Expr) (lf : LazyFrame) (s : Schema) :
  collect_schema (fold_left filter ps lf) = Ok s -> collect_schema lf = Ok s.
Proof.
  revert lf. induction ps as [|p ps IH]; simpl; intros lf H; [assumption|].
  apply IH in H. simpl in H. inv_bind H as s0 Hs0.
  unfold filter_schema in H. inv_bind H as t Ht.
  destruct (DataType_eqb t Boolean); [|discriminate].
  inversion H; subst. assumption.
Qed.

Lemma names_upserts_incl {V} (kvs l : list (string * V)) (k : string) :
  In k (names l) -> In k (names (upserts kvs l)).
Proof.
  unfold upserts. revert l.
  induction kvs as [|[k' v'] kvs IH]; simpl; intros l H; [assumption|].
  apply IH. rewrite names_upsert.
  destruct (contains k' (names l)); [assumption|].
  apply in_or_app. now left.
Qed.

Lemma with_columns_schema_incl s named s' k :
  with_columns_schema s named = Ok s' -> In k (names s) -> In k (names s').
Proof.
  unfold with_columns_schema. intros H Hk. inv_bind H as ts Hts.
  inversion H; subst. now apply names_upserts_incl.
Qed.

Lemma subset_of_existing (all_columns cols : list string) :
  (forall c, In c cols -> In c all_columns) ->
  report_utils.polars_subset_to_existing_cols all_columns cols = cols /\
  (report_utils.polars_subset_to_existing_cols all_columns cols = [] <->
   cols = []).
Proof.
  intro H.
  assert (Hid : report_utils.polars_subset_to_existing_cols all_columns cols
                = cols).
  { apply filter_id_iff. intros c Hc. apply contains_In. auto. }
  rewrite Hid. tauto.
Qed.

Section ReportProperties.

Variable _polars_capitalize : LazyFrame -> LazyFrame.
Variable _extract_keys : LazyFrame -> LazyFrame.
Variable parse_pega_date_time_formats : Expr.
Variable default_predictor_categorization : Categorization.
Variable join_model_predictor : LazyFrame -> LazyFrame -> LazyFrame.

Local Abbreviation init :=
  (__init__ _polars_capitalize _extract_keys parse_pega_date_time_formats
     default_predictor_categorization join_model_predictor).

(** X12.  When key extraction drops no column of the normalised model data,
    every context key of a constructed datamart is a column of its model
    dataset, whatever the query: subsetting the context keys to the model
    columns with [polars_subset_to_existing_cols] returns them unchanged,
    and the subset is empty only when there is no context key at all. *)
Theorem context_keys_are_model_columns df p q e calls dm calls' s lf s' :
  init (Some df) p q e calls = Ok (dm, calls') ->
  collect_schema (_polars_capitalize df) = Ok s ->
  (forall s1,
     collect_schema (_extract_keys (_polars_capitalize df)) = Ok s1 ->
     forall k, In k (names s) -> In k (names s1)) ->
  model_data dm = Some lf ->
  collect_schema lf = Ok s' ->
  (forall k, In k (context_keys dm) -> In k (names s')) /\
  report_utils.polars_subset_to_existing_cols (names s') (context_keys dm)
    = context_keys dm /\
  (report_utils.polars_subset_to_existing_cols (names s') (context_keys dm)
     = [] <-> context_keys dm = []).
Proof.
  intros H Hs Hext Hmd Hs'.
  apply (init_Ok _polars_capitalize) in H.
  destruct H as (md & keys & pd & Hm & _ & ->).
  apply (validate_model_Some _polars_capitalize) in Hm.
  destruct Hm as (s0 & t & Hs0' & _ & Hr).
  rewrite Hs in Hs0'. inversion Hs0'; subst s0.
  inversion Hr; subst md keys. simpl in Hmd. inversion Hmd; subst lf.
  clear Hmd Hr Hs0'.
  assert (Hcols : forall k, In k (names s) -> In k (names s')).
  { intros k Hk.
    assert (Hplan : collect_schema
                      (model_plan _extract_keys parse_pega_date_time_formats
                         (_polars_capitalize df) s e t) = Ok s').
    { destruct q as [ps|]; [|exact Hs'].
      simpl in Hs'. now apply collect_schema_filters_Ok in Hs'. }
    unfold model_plan in Hplan. cbv zeta in Hplan.
    set (df1 := if e && contains "Name" (names s)
                then _extract_keys (_polars_capitalize df)
                else _polars_capitalize df) in Hplan.
    assert (H1 : forall s1, collect_schema df1 = Ok s1 -> In k (names s1)).
    { intros s1 Hs1. subst df1.
      destruct (e && contains "Name" (names s)).
      - now apply (Hext s1).
      - rewrite Hs in Hs1. now inversion Hs1; subst. }
    destruct (negb (DataType_eqb t Datetime)).
    - cbn [collect_schema] in Hplan. inv_bind Hplan as s2 Hs2.
      inv_bind Hs2 as s1 Hs1.
      eapply with_columns_schema_incl; [exact Hplan|].
      eapply with_columns_schema_incl; [exact Hs2|]. auto.
    - cbn [collect_schema] in Hplan. inv_bind Hplan as s1 Hs1.
      eapply with_columns_schema_incl; [exact Hplan|]. auto. }
  assert (Hkeys : forall k, In k (List.filter (fun k => contains k (names s))
                                    (if contains "Treatment" (names s)
                                     then (candidate_keys ++ ["Treatment"])%list
                                     else candidate_keys)) ->
                            In k (names s')).
  { intros k Hk. apply Hcols. apply filter_In in Hk.
    apply contains_In. tauto. }
  cbn [context_keys]. split; [exact Hkeys|].
  apply subset_of_existing. exact Hkeys.
Qed.

End ReportProperties.

(** * Errors of the Infinity client *)

Section ExceptionProperties.

Import _exceptions.

Lemma error_map_lookup (s : string) :
  lookup s error_map =
    if String.eqb s "Error_NoMonitoringInfo" then Some NoMonitoringInfo
    else if String.eqb s "Error_ShadowCC_Exists" then Some ShadowCCExists
         else None.
Proof. reflexivity. Qed.

Lemma handle_pega_exception_no_json base_url endpoint params response :
  json response = None ->
  handle_pega_exception base_url endpoint params response =
    Raised (InvalidRequest
              {| base_url := base_url; endpoint := endpoint;
                 params := params; response := response;
                 override_message := Some "Invalid request." |}).
Proof.
  intro H. unfold handle_pega_exception. now rewrite H.
Qed.

(** The call once the body is decoded, with the lookup in [error_map]
    written out. *)
Lemma handle_pega_exception_decoded base_url endpoint params response content :
  json response = Some content ->
  handle_pega_exception base_url endpoint params response =
    match Json.get content "errorDetails" with
    | inl err => Raised (Builtin err)
    | inr details =>
        if negb (Json.truthy details) then
          Raised (ValueError
                    "Cannot parse error message: no error details given.")
        else
          match Json.len details with
          | inl err => Raised (Builtin err)
          | inr n =>
              if (1 <? n)%nat then Raised (MultipleErrors details)
              else
                match Json.getitem_0 details with
                | inl err => Raised (Builtin err)
                | inr first =>
                    match Json.get first "message" with
                    | inl err => Raised (Builtin err)
                    | inr message =>
                        match message with
                        | Json.Array _ | Json.Object _ =>
                            Raised (Builtin Json.TypeError)
                        | Json.Str s =>
                            if String.eqb s "Error_NoMonitoringInfo" then
                              Return
                                (NoMonitoringInfo
                                   {| base_url := base_url;
                                      endpoint := endpoint;
                                      params := params;
                                      response := response;
                                      override_message := None |})
                            else if String.eqb s "Error_ShadowCC_Exists" then
                              Return
                                (ShadowCCExists
                                   {| base_url := base_url;
                                      endpoint := endpoint;
                                      params := params;
                                      response := response;
                                      override_message := None |})
                            else Return (Exception details)
                        | _ => Return (Exception details)
                        end
                    end
                end
          end
    end.
Proof.
  intro H. unfold handle_pega_exception. rewrite H. unfold try_.
  destruct (Json.get content "errorDetails") as [err|details]; [reflexivity|].
  destruct (negb (Json.truthy details)); [reflexivity|].
  destruct (Json.len details) as [err|n]; [reflexivity|].
  destruct (1 <? n)%nat; [reflexivity|].
  destruct (Json.getitem_0 details) as [err|first]; [reflexivity|].
  destruct (Json.get first "message") as [err|message]; [reflexivity|].
  destruct message; try reflexivity.
  unfold Json.dict_get. rewrite error_map_lookup.
  destruct (String.eqb s "Error_NoMonitoringInfo"); [reflexivity|].
  destruct (String.eqb s "Error_ShadowCC_Exists"); reflexivity.
Qed.

Ltac handle_cases H :=
  repeat match type of H with
         | context [match ?x with _ => _ end] =>
             destruct x eqn:?; cbn in H; try discriminate H
         end.

(** X13.  [handle_pega_exception] returns an exception, instead of raising
    one, exactly when the body decodes to an object whose [errorDetails] is
    a list of one object with a hashable [message] (an absent message
    counts as [None]).  It returns [NoMonitoringInfo] or [ShadowCCExists]
    for their two messages, built from the request with no override
    message, and for every other message a plain [Exception] holding the
    details. *)
Theorem handle_pega_exception_returns base_url endpoint params response e :
  handle_pega_exception base_url endpoint params response = Return e <->
  exists d item message,
    json response = Some (Json.Object d) /\
    lookup "errorDetails" d = Some (Json.Array [Json.Object item]) /\
    Json.get (Json.Object item) "message" = inr message /\
    hashable message = true /\
    ((message = Json.Str "Error_NoMonitoringInfo" /\
      e = NoMonitoringInfo
            {| base_url := base_url; endpoint := endpoint;
               params := params; response := response;
               override_message := None |}) \/
     (message = Json.Str "Error_ShadowCC_Exists" /\
      e = ShadowCCExists
            {| base_url := base_url; endpoint := endpoint;
               params := params; response := response;
               override_message := None |}) \/
     (message <> Json.Str "Error_NoMonitoringInfo" /\
      message <> Json.Str "Error_ShadowCC_Exists" /\
      e = Exception (Json.Array [Json.Object item]))).
Proof.
  split.
  - intro H. destruct (json response) as [content|] eqn:Hj.
    2:{ rewrite (handle_pega_exception_no_json _ _ _ _ Hj) in H.
        discriminate. }
    rewrite (handle_pega_exception_decoded _ _ _ _ _ Hj) in H.
    destruct content as [| | | | |l|d]; try discriminate H.
    cbn [Json.get] in H.
    destruct (lookup "errorDetails" d) as [details|] eqn:Hd;
      [|discriminate H].
    destruct details as [|b|z|f|s|l|o]; try discriminate H.
    + destruct b; discriminate H.
    + cbn in H. destruct (z =? 0); discriminate H.
    + destruct f; discriminate H.
    + destruct s as [|c s]; [discriminate H|]. cbn in H.
      destruct s; discriminate H.
    + destruct l as [|x l]; [discriminate H|].
      destruct l as [|y l]; [|discriminate H].
      cbn [Json.truthy negb Json.len List.length Nat.ltb Nat.leb
             Json.getitem_0] in H.
      destruct x as [| | | | | |item]; try discriminate H.
      exists d, item.
      destruct (Json.get (Json.Object item) "message")
        as [err|message] eqn:Hm; [discriminate H|].
      exists message. do 3 (split; [first [assumption|reflexivity]|]).
      destruct message as [|b|z|f|s|l|o]; try discriminate H;
        try (split; [reflexivity|]; right; right;
             inversion H; repeat split; discriminate).
      split; [reflexivity|].
      destruct (String.eqb_spec s "Error_NoMonitoringInfo") as [->|Hn].
      { left. inversion H. auto. }
      destruct (String.eqb_spec s "Error_ShadowCC_Exists") as [->|Hs].
      { right; left. inversion H. auto. }
      right; right. inversion H. repeat split; congruence.
    + destruct o as [|kv o]; [discriminate H|].
      cbn [Json.truthy negb] in H.
      destruct (Json.len (Json.Object (kv :: o))); [discriminate H|].
      destruct (1 <? n)%nat; discriminate H.
  - intros (d & item & message & Hj & Hd & Hm & Hh & He).
    rewrite (handle_pega_exception_decoded _ _ _ _ _ Hj).
    cbn [Json.get]. rewrite Hd.
    cbn [Json.truthy negb Json.len List.length Nat.ltb Nat.leb
           Json.getitem_0].
    rewrite Hm.
    destruct He as [[-> ->]|[[-> ->]|(Hn & Hs & ->)]].
    + reflexivity.
    + reflexivity.
    + destruct message as [|b|z|f|s|l|o]; try reflexivity;
        try discriminate Hh.
      destruct (String.eqb_spec s "Error_NoMonitoringInfo") as [->|_];
        [congruence|].
      destruct (String.eqb_spec s "Error_ShadowCC_Exists") as [->|_];
        [congruence|]. reflexivity.
Qed.

Lemma len_truthy (v : Json.t) (n : nat) :
  Json.len v = inr n -> (1 <= n)%nat -> Json.truthy v = true.
Proof.
  destruct v as [|b|z|f|s|l|o]; simpl; intros H Hn; try discriminate H;
    inversion H; subst n.
  - destruct s; [simpl in Hn; lia | reflexivity].
  - destruct l; [simpl in Hn; lia | reflexivity].
  - destruct o; [simpl in Hn; lia | reflexivity].
Qed.

(** X14.  The errors [handle_pega_exception] raises on purpose:
    [InvalidRequest], with the override message, exactly when the body does
    not decode; [ValueError] exactly when the body is an object whose
    [errorDetails] is absent or falsy; [MultipleErrors], holding the
    details, exactly when the details have two or more entries.  It never
    raises one of the exceptions it returns, and never an [IndexError]. *)
Theorem handle_pega_exception_raises base_url endpoint params response :
  (forall f,
     handle_pega_exception base_url endpoint params response
       = Raised (InvalidRequest f) <->
     json response = None /\
     f = {| base_url := base_url; endpoint := endpoint; params := params;
            response := response;
            override_message := Some "Invalid request." |}) /\
  (forall m,
     handle_pega_exception base_url endpoint params response
       = Raised (ValueError m) <->
     exists d details,
       json response = Some (Json.Object d) /\
       Json.get (Json.Object d) "errorDetails" = inr details /\
       Json.truthy details = false /\
       m = "Cannot parse error message: no error details given.") /\
  (forall details,
     handle_pega_exception base_url endpoint params response
       = Raised (MultipleErrors details) <->
     exists d n,
       json response = Some (Json.Object d) /\
       lookup "errorDetails" d = Some details /\
       Json.len details = inr n /\ (2 <= n)%nat) /\
  (forall e,
     handle_pega_exception base_url endpoint params response = Raised e ->
     match e with
     | NoMonitoringInfo _ | ShadowCCExists _ | Exception _ => False
     | Builtin b => b <> Json.IndexError
     | _ => True
     end).
Proof.
  destruct (json response) as [content|] eqn:Hj.
  2:{ rewrite (handle_pega_exception_no_json _ _ _ _ Hj).
      split; [|split; [|split]].
      - intro f. split.
        + intro H. inversion H. auto.
        + intros [_ ->]. reflexivity.
      - intro m. split; [discriminate|].
        intros (d & details & H & _). discriminate H.
      - intro details. split; [discriminate|].
        intros (d & n & H & _). discriminate H.
      - intros e H. inversion H. exact I. }
  rewrite (handle_pega_exception_decoded _ _ _ _ _ Hj).
  split; [|split; [|split]].
  - intro f. split; [|intros [H _]; discriminate H].
    intro H. exfalso. handle_cases H.
  - intro m. split.
    + intro H.
      destruct content as [| | | | |l|d]; try discriminate H.
      destruct (Json.get (Json.Object d) "errorDetails")
        as [err|details] eqn:Hg; [discriminate H|].
      destruct (Json.truthy details) eqn:Ht; cbn [negb] in H.
      * exfalso. handle_cases H.
      * inversion H. exists d, details. auto.
    + intros (d & details & Hc & Hg & Ht & ->). inversion Hc; subst content.
      rewrite Hg, Ht. reflexivity.
  - intro details. split.
    + intro H.
      destruct content as [| | | | |l|d]; try discriminate H.
      cbn [Json.get] in H.
      destruct (lookup "errorDetails" d) as [details0|] eqn:Hd;
        [|discriminate H].
      destruct (Json.truthy details0) eqn:Ht; cbn [negb] in H;
        [|discriminate H].
      destruct (Json.len details0) as [err|n] eqn:Hl; [discriminate H|].
      destruct (1 <? n)%nat eqn:Hn.
      * inversion H; subst details0. exists d, n.
        apply Nat.ltb_lt in Hn. repeat split; auto.
      * exfalso. handle_cases H.
    + intros (d & n & Hc & Hd & Hl & Hn). inversion Hc; subst content.
      cbn [Json.get]. rewrite Hd.
      rewrite (len_truthy _ _ Hl) by lia. cbn [negb]. rewrite Hl.
      assert (Hlt : (1 <? n)%nat = true) by (apply Nat.ltb_lt; lia).
      rewrite Hlt. reflexivity.
  - intros e H. destruct e; try exact I.
    + exfalso. handle_cases H.
    + exfalso. handle_cases H.
    + exfalso. handle_cases H.
    + intros ->.
      destruct content as [| | | | |l|d]; try discriminate H.
      cbn [Json.get] in H.
      destruct (lookup "errorDetails" d) as [details|] eqn:Hd;
        [|discriminate H].
      destruct details as [|v|z|f|s|l|o]; try discriminate H.
      * destruct v; discriminate H.
      * cbn in H. destruct (z =? 0); discriminate H.
      * destruct f; discriminate H.
      * destruct s as [|c s]; [discriminate H|].
        destruct s; discriminate H.
      * destruct l as [|x l]; [discriminate H|].
        destruct l as [|y l]; [|discriminate H].
        cbn [Json.truthy negb Json.len List.length Nat.ltb Nat.leb
               Json.getitem_0] in H.
        destruct x as [| | | | | |item]; try discriminate H.
        cbn [Json.get] in H. handle_cases H.
      * destruct o as [|kv o]; [discriminate H|].
        cbn [Json.truthy negb] in H.
        destruct (Json.len (Json.Object (kv :: o))) as [err|n] eqn:Hl;
          [discriminate Hl|].
        destruct (1 <? n)%nat; discriminate H.
Qed.

(** X15.  The errors that escape [handle_pega_exception] undeclared: an
    [AttributeError] when the decoded body is not an object, when the
    details are a one-character string, or when the single detail is not an
    object; a [TypeError] when the details are [True] or a non-zero number,
    or when the message of the single detail is a list or an object; a
    [KeyError] when the details are an object with one key.  Nothing else
    raises a built-in error. *)
Theorem handle_pega_exception_undeclared base_url endpoint params response b :
  handle_pega_exception base_url endpoint params response
    = Raised (Builtin b) <->
  exists content,
    json response = Some content /\
    match content with
    | Json.Object d =>
        exists details,
          lookup "errorDetails" d = Some details /\
          match details with
          | Json.Null => False
          | Json.Bool v => v = true /\ b = Json.TypeError
          | Json.Int z => z <> 0 /\ b = Json.TypeError
          | Json.Float f =>
              Json.truthy (Json.Float f) = true /\ b = Json.TypeError
          | Json.Str s => String.length s = 1%nat /\ b = Json.AttributeError
          | Json.Array l =>
              exists x,
                l = [x] /\
                match x with
                | Json.Object item =>
                    exists message,
                      lookup "message" item = Some message /\
                      hashable message = false /\ b = Json.TypeError
                | _ => b = Json.AttributeError
                end
          | Json.Object o =>
              List.length (nodup string_dec (names o)) = 1%nat /\
              b = Json.KeyError
          end
    | _ => b = Json.AttributeError
    end.
Proof.
  destruct (json response) as [content|] eqn:Hj.
  2:{ rewrite (handle_pega_exception_no_json _ _ _ _ Hj).
      split; [discriminate|]. intros (content & H & _). discriminate H. }
  rewrite (handle_pega_exception_decoded _ _ _ _ _ Hj).
  split.
  - intro H. exists content. split; [reflexivity|].
    destruct content as [| | | | |l|d]; try (inversion H; reflexivity).
    cbn [Json.get] in H.
    destruct (lookup "errorDetails" d) as [details|] eqn:Hd;
      [|discriminate H].
    exists details. split; [reflexivity|].
    destruct details as [|v|z|f|s|l|o].
    + discriminate H.
    + destruct v; [|discriminate H]. inversion H. auto.
    + cbn in H. destruct (Z.eqb_spec z 0); [discriminate H|].
      inversion H. auto.
    + destruct f; try discriminate H; inversion H; auto.
    + destruct s as [|c s]; [discriminate H|].
      destruct s; [|discriminate H]. inversion H. auto.
    + destruct l as [|x l]; [discriminate H|].
      destruct l as [|y l]; [|discriminate H].
      exists x. split; [reflexivity|].
      cbn [Json.truthy negb Json.len List.length Nat.ltb Nat.leb
             Json.getitem_0] in H.
      destruct x as [| | | | | |item]; try (inversion H; reflexivity).
      cbn [Json.get] in H.
      destruct (lookup "message" item) as [message|] eqn:Hm;
        [|discriminate H].
      exists message. split; [reflexivity|].
      destruct message; try discriminate H; try (inversion H; auto).
      handle_cases H.
    + destruct o as [|kv o]; [discriminate H|].
      cbn [Json.truthy negb] in H.
      destruct (Json.len (Json.Object (kv :: o))) as [err|n] eqn:Hl;
        [discriminate Hl|].
      assert (Hl' : List.length (nodup string_dec (names (kv :: o))) = n)
        by (cbn [Json.len] in Hl; congruence).
      destruct (1 <? n)%nat eqn:Hn; [discriminate H|].
      cbn [Json.getitem_0] in H. inversion H. split; [|reflexivity].
      apply Nat.ltb_ge in Hn. rewrite Hl'.
      assert (Hpos : (0 < n)%nat); [|lia].
      rewrite <- Hl'. destruct kv as [k v]. cbn [names map fst].
      assert (Hin : In k (nodup string_dec (k :: map fst o)))
        by (apply nodup_In; now left).
      destruct (nodup string_dec (k :: map fst o)); [destruct Hin|].
      simpl. lia.
  - intros (content' & Hc & H). inversion Hc; subst content'. clear Hc.
    destruct content as [| | | | |l|d]; try (subst b; reflexivity).
    destruct H as (details & Hd & H). cbn [Json.get]. rewrite Hd.
    destruct details as [|v|z|f|s|l|o].
    + destruct H.
    + destruct H as [-> ->]. reflexivity.
    + destruct H as [Hz ->]. cbn.
      destruct (Z.eqb_spec z 0); [contradiction|reflexivity].
    + destruct H as [Ht ->]. rewrite Ht. reflexivity.
    + destruct H as [Hs ->].
      destruct s as [|c s]; [discriminate Hs|].
      destruct s; [reflexivity|discriminate Hs].
    + destruct H as (x & -> & H).
      cbn [Json.truthy negb Json.len List.length Nat.ltb Nat.leb
             Json.getitem_0].
      destruct x as [| | | | | |item]; try (subst b; reflexivity).
      destruct H as (message & Hm & Hh & ->). cbn [Json.get]. rewrite Hm.
      destruct message; try discriminate Hh; reflexivity.
    + destruct H as [Hl ->].
      destruct o as [|kv o]; [discriminate Hl|].
      cbn [Json.truthy negb Json.len]. rewrite Hl. reflexivity.
Qed.

End ExceptionProperties.

(** * The theorems at concrete inputs *)

Import Samples.

(** The construction the examples share: the sample collaborators, key
    extraction on, no categorisation call made before. *)
Local Abbreviation sample_init model_df predictor_df query :=
  (__init__ keep_frame extract_treatment parse_dates by_predictor_name
     keep_left model_df predictor_df query true 0).

(** C1, the scenario of 5 positives in 20 responses: the success rate is
    0.25. *)
Lemma success_rate_of_model_rows_witness :
  exists dm calls' lf out row,
    sample_init (Some model_df) None None = Ok (dm, calls') /\
    model_data dm = Some lf /\ collect lf = Ok out /\ In row (rows out) /\
    lookup "Positives" row = Some (VInt 5) /\
    lookup "ResponseCount" row = Some (VInt 20) /\
    lookup "SuccessRate" row = Some (VFloat F64.quarter).
Proof.
  do 5 eexists. split; [reflexivity|]. split; [reflexivity|].
  split; [reflexivity|]. split; [left; reflexivity|].
  split; [reflexivity|]. split; [reflexivity|].
  destruct (success_rate_of_model_rows keep_frame extract_treatment
              parse_dates by_predictor_name keep_left model_df None None true
              0%nat _ _ _ _ _ eq_refl eq_refl eq_refl (or_introl eq_refl))
    as (pos & rc & sr & Hp & Hr & Hs & Hnum & _).
  inversion Hp; subst pos. inversion Hr; subst rc.
  destruct (Hnum _ _ eq_refl eq_refl) as (-> & _).
  exact Hs.
Defined.

(** C1 as stated fails: the row with 5 positives and no responses has the
    success rate plus infinity, which is above 1, and the row with a null
    count has a null success rate. *)
Lemma success_rate_of_model_rows_counterexample :
  model_column "Positives" (sample_init (Some model_df) None None)
  = Ok [Some (VInt 5); Some (VInt 0); Some (VInt 5); Some VNull;
        Some (VInt 150)] /\
  model_column "ResponseCount" (sample_init (Some model_df) None None)
  = Ok [Some (VInt 20); Some (VInt 0); Some (VInt 0); Some (VInt 10);
        Some (VInt 200)] /\
  model_column "SuccessRate" (sample_init (Some model_df) None None)
  = Ok [Some (VFloat F64.quarter); Some (VFloat F64.zero);
        Some (VFloat F64.inf); Some VNull;
        Some (VFloat (S754_finite false 6755399441055744 (-53)))] /\
  F64.leb F64.inf F64.one = false.
Proof.
  repeat split; reflexivity.
Qed.

Local Abbreviation sample_validate_predictor predictor_df :=
  (_validate_predictor_data keep_frame by_predictor_name predictor_df 0).



(** C3 on the sample export, whose schema has [Channel] and [Name] of the
    six candidates. *)
Lemma context_keys_after_construction_witness :
  exists dm calls',
    sample_init (Some model_df) None None = Ok (dm, calls') /\
    context_keys dm = ["Channel"; "Name"] /\
    ~ In "Treatment" (context_keys dm).
Proof.
  do 2 eexists. split; [reflexivity|].
  destruct (context_keys_after_construction keep_frame extract_treatment
              parse_dates by_predictor_name keep_left (Some model_df) None
              None true 0%nat _ _ eq_refl) as (s & Hs & Hk & _ & Ht).
  inversion Hs; subst s. split; [exact Hk|].
  intro H. apply Ht in H. simpl in H. intuition discriminate.
Defined.

(** C4, the scenario of a construction without predictor data. *)
Lemma combined_absent_if_either_absent_witness :
  exists dm calls',
    sample_init (Some model_df) None None = Ok (dm, calls') /\
    combined_data dm = None /\
    present (model_data dm) = true /\ present (predictor_data dm) = false.
Proof.
  do 2 eexists. split; [reflexivity|].
  exact (combined_absent_if_either_absent keep_frame extract_treatment
           parse_dates by_predictor_name keep_left (Some model_df) None None
           true 0%nat _ _ eq_refl (or_intror eq_refl)).
Defined.

(** C5, the scenario of the query [ResponseCount > 100]: of the five sample
    rows only the one with 200 responses stays, and the predictor frame is
    the one the unqueried construction has. *)
Lemma query_restricts_model_only_witness :
  let query := Some [gt (col "ResponseCount") (lit_int 100)] in
  exists dm calls' dm0,
    sample_init (Some model_df) (Some (predictor_df 3 7)) query
    = Ok (dm, calls') /\
    sample_init (Some model_df) (Some (predictor_df 3 7)) None
    = Ok (dm0, calls') /\
    predictor_data dm = predictor_data dm0 /\
    model_column "ResponseCount"
      (sample_init (Some model_df) (Some (predictor_df 3 7)) query)
    = Ok [Some (VInt 200)].
Proof.
  intro query.
  destruct (query_restricts_model_only keep_frame extract_treatment
              parse_dates by_predictor_name keep_left (Some model_df)
              (Some (predictor_df 3 7)) query true 0%nat _ _ eq_refl)
    as (dm0 & H0 & Hp & _).
  do 2 eexists. exists dm0. split; [reflexivity|].
  split; [exact H0|]. split; [exact Hp | reflexivity].
Defined.

(** C6 on an export without [Positives]: the construction succeeds and the
    missing column shows when the model dataset is resolved or
    materialised. *)
Lemma missing_column_error_locality_witness :
  exists dm lf,
    __init__ keep_frame keep_frame parse_dates by_predictor_name keep_left
      (Some model_df_no_positives) None None true 0 = Ok (dm, 0%nat) /\
    model_data dm = Some lf /\
    collect_schema lf = Raise (ColumnNotFoundError "Positives") /\
    exists e', collect lf = Raise e'.
Proof.
  exact (missing_column_error_locality keep_frame keep_frame parse_dates
           by_predictor_name keep_left model_df_no_positives None None true
           0%nat _ (None, 0%nat) _ eq_refl eq_refl eq_refl).
Defined.

(** C6 as stated fails for [SnapshotTime]: without that column the
    construction itself raises. *)
Lemma missing_column_error_locality_counterexample :
  __init__ keep_frame keep_frame parse_dates by_predictor_name keep_left
    (Some model_df_no_snapshot) None None true 0
  = Raise (KeyError "SnapshotTime") /\
  ~ exists r,
      __init__ keep_frame keep_frame parse_dates by_predictor_name keep_left
        (Some model_df_no_snapshot) None None true 0 = Ok r.
Proof.
  split; [reflexivity|]. intros (r & H). discriminate H.
Qed.

(** C7 on a predictor export that is categorised already: validation makes
    no categorisation call and the category stays [Custom]. *)
Lemma categorization_guarded_at_call_site_witness :
  exists pd,
    sample_validate_predictor (Some categorized_df) = Ok (pd, 0%nat) /\
    pd = Some (predictor_metrics categorized_df
                 (List.app predictor_schema
                    [("PredictorCategory", String_)])) /\
    predictor_column "PredictorCategory"
      (sample_validate_predictor (Some categorized_df))
    = Ok [Some (VStr "Custom")].
Proof.
  eexists. split; [reflexivity|].
  destruct (categorization_guarded_at_call_site keep_frame by_predictor_name
              categorized_df 0%nat _ _ _ eq_refl eq_refl)
    as ((Hpd & _ & _) & _).
  split; [exact Hpd | reflexivity].
Defined.

(** C8 on a datamart with model data only, saved at 12:00:07.045678 on
    2024-03-09. *)
Lemma save_data_names_and_locations_witness :
  let self := {| context_keys := []; model_data := Some model_df;
                 predictor_data := None; combined_data := None |} in
  let w := {| clock_reads := 0; cache_calls := [] |} in
  exists res w',
    datetime.valid (noon (clock_reads w)) /\
    save_data arrow_file noon self "." w = (Ok res, w') /\
    drop_last3 (datetime.strftime (noon 0)) = "20240309T120007.045" /\
    res = (Some "./cached_model_data_20240309T120007.045.arrow", None) /\
    clock_reads w' = 1%nat /\
    cache_calls w' = [(model_df, ".", "cached_model_data_20240309T120007.045")].
Proof.
  intros self w.
  assert (Hv : datetime.valid (noon (clock_reads w))).
  { unfold datetime.valid. simpl. lia. }
  do 2 eexists. split; [exact Hv|]. split; [reflexivity|].
  destruct (save_data_names_and_locations arrow_file noon self "." w _ _
              Hv eq_refl) as (_ & _ & Hclock & _ & _ & Hcalls).
  split; [reflexivity|]. split; [reflexivity|].
  split; [exact Hclock | exact Hcalls].
Defined.

(** C9 on the sample row whose [Positives] is null. *)
Lemma null_counts_give_null_success_rate_witness :
  exists dm calls' lf out row,
    sample_init (Some model_df) None None = Ok (dm, calls') /\
    model_data dm = Some lf /\ collect lf = Ok out /\ In row (rows out) /\
    lookup "Positives" row = Some VNull /\
    lookup "ResponseCount" row = Some (VInt 10) /\
    lookup "SuccessRate" row = Some VNull.
Proof.
  do 5 eexists. split; [reflexivity|]. split; [reflexivity|].
  split; [reflexivity|].
  split; [right; right; right; left; reflexivity|].
  split; [reflexivity|]. split; [reflexivity|].
  exact (proj1 (null_counts_give_null_success_rate keep_frame
                  extract_treatment parse_dates by_predictor_name keep_left
                  model_df None None true 0%nat _ _ _ _ _ eq_refl eq_refl
                  eq_refl (or_intror (or_intror (or_intror
                                                   (or_introl eq_refl))))
                  (or_introl eq_refl))).
Defined.

(** C10 on the sample export with an extraction that produces a
    [Treatment] column: the materialised model data has the column, the
    context keys do not. *)
Lemma extracted_columns_never_context_keys_witness :
  exists dm calls',
    sample_init (Some model_df) None None = Ok (dm, calls') /\
    collect_schema (keep_frame model_df) = Ok model_schema /\
    model_column "Treatment" (sample_init (Some model_df) None None)
    = Ok [Some (VStr "Offer1"); Some (VStr "Offer1"); Some (VStr "Offer1");
          Some (VStr "Offer1"); Some (VStr "Offer1")] /\
    ~ In "Treatment" (context_keys dm).
Proof.
  do 2 eexists. split; [reflexivity|]. split; [reflexivity|].
  split; [reflexivity|].
  apply (proj1 (extracted_columns_never_context_keys keep_frame
                  extract_treatment parse_dates by_predictor_name keep_left
                  model_df None None true 0%nat _ _ model_schema
                  eq_refl eq_refl)).
  simpl. intuition discriminate.
Defined.

(** X1 on a bin with 3 positives and 7 negatives: the propensity is a
    number between 0 and 1; and on a bin without responses: it is NaN. *)
Lemma bin_propensity_of_predictor_rows_witness :
  exists lf calls' out row f,
    sample_validate_predictor (Some (predictor_df 3 7)) = Ok (Some lf, calls') /\
    collect lf = Ok out /\ In row (rows out) /\
    lookup "BinPropensity" row = Some (VFloat f) /\
    F64.leb F64.zero f = true /\ F64.leb f F64.one = true.
Proof.
  destruct (bin_propensity_of_predictor_rows keep_frame by_predictor_name
              (predictor_df 3 7) 0%nat _ _ _ _ eq_refl eq_refl
              (or_introl eq_refl))
    as (pos & brc & prop & Hp & Hb & Hprop & _ & _ & _ & _ & _ & Hunit).
  inversion Hp; subst pos. inversion Hb; subst brc.
  destruct (Hunit 3 10 (or_introl eq_refl) (or_introl eq_refl)
              ltac:(lia) ltac:(split; reflexivity))
    as (f & Hf & Hlo & Hhi).
  do 4 eexists. exists f. split; [reflexivity|]. split; [reflexivity|].
  split; [left; reflexivity|]. rewrite Hf in Hprop. auto.
Defined.

(** X2 on the sample predictor export: one row in, one row out, with the
    [BinPositives] it came with. *)
Lemma predictor_validation_keeps_input_witness :
  exists lf calls' out inp,
    sample_validate_predictor (Some (predictor_df 3 7)) = Ok (Some lf, calls') /\
    collect lf = Ok out /\
    collect (keep_frame (predictor_df 3 7)) = Ok inp /\
    List.length (rows out) = List.length (rows inp) /\
    column "BinPositives" out = column "BinPositives" inp.
Proof.
  destruct (predictor_validation_keeps_input keep_frame by_predictor_name
              (predictor_df 3 7) 0%nat _ _ predictor_schema _
              eq_refl eq_refl eq_refl)
    as (inp & Hinp & Hlen & Hcol).
  do 3 eexists. exists inp. split; [reflexivity|]. split; [reflexivity|].
  split; [exact Hinp|]. split; [exact Hlen|].
  apply Hcol.
  - simpl. auto.
  - discriminate.
  - discriminate.
Defined.

(** X4 on the sample model export: five rows in, five rows out, with the
    [Positives] they came with. *)
Lemma model_validation_keeps_input_witness :
  exists lf keys' out inp,
    _validate_model_data keep_frame extract_treatment parse_dates
      candidate_keys (Some model_df) None true = Ok (Some lf, keys') /\
    collect lf = Ok out /\
    collect (extract_treatment (keep_frame model_df)) = Ok inp /\
    List.length (rows out) = 5%nat /\
    column "Positives" out = column "Positives" inp /\
    column "SnapshotTime" out = column "SnapshotTime" inp.
Proof.
  destruct (model_validation_keeps_input keep_frame extract_treatment
              parse_dates candidate_keys model_df true _ _ model_schema _
              eq_refl eq_refl eq_refl)
    as (inp & Hinp & Hlen & Hcol & Htime).
  do 3 eexists. exists inp. split; [reflexivity|]. split; [reflexivity|].
  split; [exact Hinp|]. split; [reflexivity|]. split.
  - apply Hcol; discriminate.
  - apply Htime. reflexivity.
Defined.

(** X5 on an export without a [Name] column: the construction is the same
    with a key extraction that does nothing. *)
Lemma key_extraction_only_on_request_witness :
  (exists s, collect_schema (keep_frame model_df_no_positives) = Ok s /\
             ~ In "Name" (names s)) /\
  __init__ keep_frame keep_frame parse_dates by_predictor_name keep_left
    (Some model_df_no_positives) None None true 0
  = sample_init (Some model_df_no_positives) None None.
Proof.
  assert (H : exists s, collect_schema (keep_frame model_df_no_positives) = Ok s /\
                        ~ In "Name" (names s)).
  { eexists. split; [reflexivity|]. simpl.
    intros [E|[E|[E|[]]]]; discriminate E. }
  split; [exact H|].
  exact (key_extraction_only_on_request keep_frame extract_treatment
           parse_dates by_predictor_name keep_left model_df_no_positives
           None None true 0%nat (or_intror H) keep_frame).
Defined.

(** X6 on the sample export: the two context keys are distinct. *)
Lemma context_keys_distinct_witness :
  exists dm calls',
    sample_init (Some model_df) None None = Ok (dm, calls') /\
    context_keys dm = ["Channel"; "Name"] /\
    NoDup (context_keys dm) /\
    (List.length (context_keys dm) <= 6)%nat.
Proof.
  do 2 eexists. split; [reflexivity|]. split; [reflexivity|].
  destruct (context_keys_distinct keep_frame extract_treatment parse_dates
              by_predictor_name keep_left (Some model_df) None None true
              0%nat _ _ eq_refl) as (Hnd & Hlen & _).
  split; [exact Hnd | exact Hlen].
Defined.

(** X8 on the sample predictor export, which has no category yet: the
    category column is appended after the four columns it has. *)
Lemma apply_predictor_categorization_keeps_frame_witness :
  exists out inp,
    collect (fst (apply_predictor_categorization (predictor_df 3 7)
                    by_predictor_name 0)) = Ok out /\
    collect (predictor_df 3 7) = Ok inp /\
    List.length (rows out) = List.length (rows inp) /\
    column "BinPositives" out = column "BinPositives" inp /\
    names (schema out) =
      ["ModelID"; "PredictorName"; "BinPositives"; "BinNegatives";
       "PredictorCategory"].
Proof.
  destruct (apply_predictor_categorization_keeps_frame (predictor_df 3 7)
              by_predictor_name 0%nat _ eq_refl)
    as (inp & Hinp & Hlen & Hcol & Hnames).
  eexists. exists inp. split; [reflexivity|]. split; [exact Hinp|].
  split; [exact Hlen|]. split; [apply Hcol; discriminate|].
  inversion Hinp; subst inp. exact Hnames.
Defined.

(** X9 on a construction whose model export has no [SnapshotTime] and
    whose predictor export has no [BinPositives]: the model error is the
    one raised. *)
Lemma construction_failure_order_witness :
  sample_init (Some model_df_no_snapshot) (Some predictor_df_no_positives) None
  = Raise (KeyError "SnapshotTime").
Proof.
  destruct (construction_failure_order keep_frame extract_treatment
              parse_dates by_predictor_name keep_left
              (Some model_df_no_snapshot) (Some predictor_df_no_positives)
              None true 0%nat) as (_ & _ & Hkey & _).
  exact (Hkey model_df_no_snapshot _ eq_refl eq_refl eq_refl).
Defined.


(** X12 on the sample export, whose key extraction adds a [Treatment]
    column and drops none. *)
Lemma context_keys_are_model_columns_witness :
  exists dm calls' lf s',
    sample_init (Some model_df) None None = Ok (dm, calls') /\
    model_data dm = Some lf /\ collect_schema lf = Ok s' /\
    report_utils.polars_subset_to_existing_cols (names s') (context_keys dm)
    = ["Channel"; "Name"].
Proof.
  do 4 eexists. split; [reflexivity|]. split; [reflexivity|].
  split; [reflexivity|].
  assert (Hext : forall s1,
             collect_schema (extract_treatment (keep_frame model_df)) = Ok s1 ->
             forall k, In k (names model_schema) -> In k (names s1)).
  { intros s1 H k Hk. inversion H; subst s1. simpl in *. tauto. }
  destruct (context_keys_are_model_columns keep_frame extract_treatment
              parse_dates by_predictor_name keep_left model_df None None true
              0%nat _ _ model_schema _ _ eq_refl eq_refl Hext eq_refl
              eq_refl) as (_ & Hid & _).
  exact Hid.
Defined.

(** X13 on a response that reports [Error_NoMonitoringInfo]. *)
Lemma handle_pega_exception_returns_witness :
  _exceptions.handle_pega_exception "https://pega.example" "/prweb/api"
    [] (error_response (Some no_monitoring_body))
  = _exceptions.Return
      (_exceptions.NoMonitoringInfo
         {| _exceptions.base_url := "https://pega.example";
            _exceptions.endpoint := "/prweb/api";
            _exceptions.params := [];
            _exceptions.response := error_response (Some no_monitoring_body);
            _exceptions.override_message := None |}).
Proof.
  apply (proj2 (handle_pega_exception_returns _ _ _ _ _)).
  do 3 eexists. split; [reflexivity|]. split; [reflexivity|].
  split; [reflexivity|]. split; [reflexivity|].
  left. split; reflexivity.
Defined.

(** X14 on a response that reports two errors. *)
Lemma handle_pega_exception_raises_witness :
  exists details,
    _exceptions.handle_pega_exception "https://pega.example" "/prweb/api"
      [] (error_response (Some two_errors_body))
    = _exceptions.Raised (_exceptions.MultipleErrors details) /\
    Json.len details = inr 2%nat.
Proof.
  destruct (handle_pega_exception_raises "https://pega.example" "/prweb/api"
              [] (error_response (Some two_errors_body)))
    as (_ & _ & Hmulti & _).
  eexists. split.
  - apply (proj2 (Hmulti _)).
    do 2 eexists. split; [reflexivity|]. split; [reflexivity|].
    split; [reflexivity|]. simpl. lia.
  - reflexivity.
Defined.

(** X15 on a response whose body is a list: the error is an
    [AttributeError], not one of the declared ones. *)
Lemma handle_pega_exception_undeclared_witness :
  _exceptions.handle_pega_exception "https://pega.example" "/prweb/api"
    [] (error_response (Some bare_list_body))
  = _exceptions.Raised (_exceptions.Builtin Json.AttributeError).
Proof.
  apply (proj2 (handle_pega_exception_undeclared _ _ _ _ _)).
  eexists. split; [reflexivity|]. reflexivity.
Defined.

(** X7 on a folder without exports: the datamart is empty, with the five
    default context keys. *)
Lemma from_ds_export_defaults_and_absence_witness :
  from_ds_export keep_frame extract_treatment parse_dates by_predictor_name
    keep_left empty_folder None (Some "predictors.zip") "." None true 0
  = Ok ({| context_keys := ["Channel"; "Direction"; "Issue"; "Group"; "Name"];
           model_data := None; predictor_data := None;
           combined_data := None |}, 0%nat).
Proof.
  destruct (from_ds_export_defaults_and_absence keep_frame extract_treatment
              parse_dates by_predictor_name keep_left empty_folder "." None
              true 0%nat) as (_ & _ & _ & Habsent).
  exact (Habsent None (Some "predictors.zip") eq_refl eq_refl).
Defined.

(** X11 on three requested columns of which two exist. *)
Lemma polars_subset_to_existing_cols_spec_witness :
  let existing := ["ModelID"; "Channel"; "Name"; "Positives"] in
  let requested := ["Name"; "Direction"; "Channel"] in
  report_utils.polars_subset_to_existing_cols existing requested
  = ["Name"; "Channel"] /\
  report_utils.polars_subset_to_existing_cols existing
    (report_utils.polars_subset_to_existing_cols existing requested)
  = report_utils.polars_subset_to_existing_cols existing requested /\
  ~ In "Direction"
      (report_utils.polars_subset_to_existing_cols existing requested).
Proof.
  intros existing requested.
  destruct (polars_subset_to_existing_cols_spec existing requested)
    as (Hin & _ & _ & Hidem & _).
  split; [reflexivity|]. split; [exact Hidem|].
  intro H. apply Hin in H. destruct H as [_ H].
  simpl in H. destruct H as [E|[E|[E|[E|[]]]]]; discriminate E.
Defined.
